(** * Tic-tac-toe front end: the game state of [App.js]

    A shallow embedding of the state held by the [App] component of
    [tic_tac_frontend/src/App.js] (the five [useState] cells), of its
    handlers [handleSquareClick], [handleReset] and [toggleTheme], of the
    outcome effect that runs whenever [squares] is replaced, and of
    [calculateWinner]. *)

From stdpp Require Import base gmap list fin_maps strings.
From Stdlib Require Import ZArith Lia.

Local Open Scope Z_scope.

(** ** Values stored in, and read from, the squares array *)

(** The two marks, the strings ['X'] and ['O']. *)
Inductive mark : Type := X | O.

(** What a read [squares[i]] can yield: [undefined] for a missing property,
    [null] for an empty square, or a mark. *)
Inductive value : Type :=
  | Undefined
  | Null
  | Mark (m : mark).

#[global] Instance mark_eq_dec : EqDecision mark.
Proof. solve_decision. Defined.

#[global] Instance value_eq_dec : EqDecision value.
Proof. solve_decision. Defined.

(** JavaScript truthiness: [undefined] and [null] are falsy, the non-empty
    strings ['X'] and ['O'] are truthy. This is also the callback [Boolean]. *)
Definition truthy (v : value) : bool :=
  match v with
  | Mark _ => true
  | Undefined | Null => false
  end.

(** Strict equality [===] on these values. *)
Definition strict_eq (v w : value) : bool := bool_decide (v = w).

(** ** JavaScript arrays

    An array is an object: own properties keyed by integers, and a [length].
    A key [k] with [0 <= k < 2^32 - 1] is an array index; writing at an index
    at or beyond [length] grows the array, writing at any other integer key
    only adds a property. An index below [length] with no property is a
    hole. *)
Module JSArray.

Record t : Type := Make { length : Z; props : gmap Z value }.

#[global] Instance t_eq_dec : EqDecision t.
Proof. solve_decision. Defined.

Definition is_index (i : Z) : bool := (0 <=? i) && (i <? 2 ^ 32 - 1).

(** [a[i]] *)
Definition get (a : t) (i : Z) : value := default Undefined (props a !! i).

(** [a[i] = v] *)
Definition set (a : t) (i : Z) (v : value) : t :=
  {| length := if is_index i && (length a <=? i) then i + 1 else length a;
     props := <[i := v]> (props a) |}.

(** [Array(n)]: [n] holes. *)
Definition Array (n : Z) : t := {| length := n; props := ∅ |}.

(** [a.fill(v)]: every index below [length] is set to [v]. *)
Definition fill (a : t) (v : value) : t :=
  {| length := length a;
     props := foldr (fun k m => <[k := v]> m) (props a)
                    (seqZ 0 (length a)) |}.

(** [a.slice()]: a new array with the elements at the indices below
    [length]; holes stay holes, other properties are not copied. *)
Definition slice (a : t) : t :=
  {| length := length a;
     props := filter (fun kv => 0 <= kv.1 < length a) (props a) |}.

(** [a.every(f)]: [f] is called on the elements that exist, in index
    order; holes are skipped. *)
Definition every (f : value -> bool) (a : t) : bool :=
  forallb (fun k => match props a !! k with
                    | Some v => f v
                    | None => true
                    end)
          (seqZ 0 (length a)).

(** A literal array. *)
Definition of_list (vs : list value) : t :=
  {| length := Z.of_nat (List.length vs);
     props := list_to_map (zip (seqZ 0 (Z.of_nat (List.length vs))) vs) |}.

End JSArray.

Notation "a .[ i ]" := (JSArray.get a i)
  (at level 1, left associativity, format "a .[ i ]").

(** ** [calculateWinner] *)

(** A line is an array of three indices, destructured as [[a, b, c]]. *)
Definition line_t : Type := Z * Z * Z.

Definition lines : list line_t :=
  [ (0, 1, 2);
    (3, 4, 5);
    (6, 7, 8);
    (0, 3, 6);
    (1, 4, 7);
    (2, 5, 8);
    (0, 4, 8);
    (2, 4, 6) ].

(** The object returned by [calculateWinner]: both fields are nullable. *)
Record winner_info : Type :=
  WinnerInfo { winner : value; line : option line_t }.

#[global] Instance winner_info_eq_dec : EqDecision winner_info.
Proof. solve_decision. Defined.

Definition no_winner : winner_info := {| winner := Null; line := None |}.

(** The test of the loop body:
    [squares[a] && squares[a] === squares[b] && squares[a] === squares[c]]. *)
Definition line_wins (squares : JSArray.t) (l : line_t) : bool :=
  let '(a, b, c) := l in
  truthy squares.[a]
  && strict_eq squares.[a] squares.[b]
  && strict_eq squares.[a] squares.[c].

(** The [for (let line of lines)] loop with its early [return]. *)
Fixpoint scan_lines (squares : JSArray.t) (ls : list line_t) : winner_info :=
  match ls with
  | [] => no_winner
  | l :: rest =>
      let '(a, _, _) := l in
      if line_wins squares l
      then {| winner := squares.[a]; line := Some l |}
      else scan_lines squares rest
  end.

Definition calculateWinner (squares : JSArray.t) : winner_info :=
  scan_lines squares lines.

(** ** The state of [App] *)

(** The theme strings ['light'] and ['dark']. *)
Inductive theme_t : Type := light | dark.

#[global] Instance theme_eq_dec : EqDecision theme_t.
Proof. solve_decision. Defined.

(** The five [useState] cells. *)
Record state : Type := State {
  squares : JSArray.t;
  xIsNext : bool;
  winnerInfo : winner_info;
  isDraw : bool;
  theme : theme_t
}.

#[global] Instance state_eq_dec : EqDecision state.
Proof. solve_decision. Defined.

Definition setSquares (sq : JSArray.t) (st : state) : state :=
  State sq (xIsNext st) (winnerInfo st) (isDraw st) (theme st).
Definition setXIsNext (b : bool) (st : state) : state :=
  State (squares st) b (winnerInfo st) (isDraw st) (theme st).
Definition setWinnerInfo (w : winner_info) (st : state) : state :=
  State (squares st) (xIsNext st) w (isDraw st) (theme st).
Definition setIsDraw (b : bool) (st : state) : state :=
  State (squares st) (xIsNext st) (winnerInfo st) b (theme st).
Definition setTheme (t : theme_t) (st : state) : state :=
  State (squares st) (xIsNext st) (winnerInfo st) (isDraw st) t.

(** The effect with dependency [[squares]]: the values it gives to
    [winnerInfo] and [isDraw], as a function of the board. *)
Definition outcome_of_board (sq : JSArray.t) : winner_info * bool :=
  let w := calculateWinner sq in
  if truthy (winner w) then (w, false)
  else if JSArray.every truthy sq then (no_winner, true)
  else (no_winner, false).

Definition outcome_effect (st : state) : state :=
  let '(w, d) := outcome_of_board (squares st) in
  setIsDraw d (setWinnerInfo w st).

(** The initial values of the [useState] cells. *)
Definition mount : state :=
  {| squares := JSArray.fill (JSArray.Array 9) Null;
     xIsNext := true;
     winnerInfo := no_winner;
     isDraw := false;
     theme := light |}.

(** The state once the component is mounted: effects run after the first
    render. *)
Definition init : state := outcome_effect mount.

(** [toggleTheme] *)
Definition toggleTheme (st : state) : state :=
  setTheme (if bool_decide (theme st = light) then dark else light) st.

(** [handleSquareClick]: [None] is the early [return], where no state is
    set; [Some] is the state after [setSquares] and [setXIsNext]. *)
Definition handleSquareClick (st : state) (i : Z) : option state :=
  if truthy (winner (winnerInfo st)) || truthy (squares st).[i] then None
  else
    let nextSquares := JSArray.slice (squares st) in
    let nextSquares :=
      JSArray.set nextSquares i (Mark (if xIsNext st then X else O)) in
    Some (setXIsNext (negb (xIsNext st)) (setSquares nextSquares st)).

(** [handleReset] *)
Definition handleReset (st : state) : state :=
  setIsDraw false
    (setWinnerInfo no_winner
       (setXIsNext true
          (setSquares (JSArray.fill (JSArray.Array 9) Null) st))).

(** A click on square [i], processed to the end. Events are handled one at a
    time: when the handler replaces [squares], the component renders again
    and the outcome effect runs on the new board before the next event; on
    the early [return] nothing is set and no effect runs. *)
Definition applyMove (i : Z) (st : state) : state :=
  match handleSquareClick st i with
  | None => st
  | Some st' => outcome_effect st'
  end.

(** A click on the reset button; [squares] is replaced, so the effect runs. *)
Definition reset (st : state) : state := outcome_effect (handleReset st).

(** ** The outcome shown to the player *)

Inductive Outcome : Type :=
  | InProgress
  | Draw
  | Won (player : mark) (line : option line_t).

#[global] Instance Outcome_eq_dec : EqDecision Outcome.
Proof. solve_decision. Defined.

(** The case distinction of [renderStatus], with the line that [Board]
    highlights. *)
Definition decode_outcome (w : winner_info) (d : bool) : Outcome :=
  match winner w with
  | Mark m => Won m (line w)
  | Undefined | Null => if d then Draw else InProgress
  end.

Definition outcome (st : state) : Outcome :=
  decode_outcome (winnerInfo st) (isDraw st).

Definition computeOutcome (sq : JSArray.t) : Outcome :=
  let '(w, d) := outcome_of_board sq in decode_outcome w d.

(** ** Events of the user interface *)

Inductive event : Type :=
  | Click (i : Z)
  | Reset
  | ToggleTheme.

Definition step (e : event) (st : state) : state :=
  match e with
  | Click i => applyMove i st
  | Reset => reset st
  | ToggleTheme => toggleTheme st
  end.

Definition run (evs : list event) (st : state) : state :=
  foldl (fun s e => step e s) st evs.

(** The indices [Board] gives to its squares: [row * 3 + col] for [row] and
    [col] in [[0, 1, 2]]. *)
Definition rendered_squares : list Z :=
  row ← [0; 1; 2]; (fun col => row * 3 + col) <$> [0; 1; 2].

Definition ui_event (e : event) : bool :=
  match e with
  | Click i => bool_decide (i ∈ rendered_squares)
  | Reset | ToggleTheme => true
  end.

(** The marks written by a sequence of clicks, in order; ignored clicks
    write nothing. *)
Fixpoint marks_written (clicks : list Z) (st : state) : list mark :=
  match clicks with
  | [] => []
  | i :: rest =>
      match handleSquareClick st i with
      | None => marks_written rest st
      | Some _ =>
          (if xIsNext st then X else O) :: marks_written rest (applyMove i st)
      end
  end.

(** [X, O, X, O, ...], [n] marks. *)
Fixpoint alternating (first : bool) (n : nat) : list mark :=
  match n with
  | 0%nat => []
  | S n' => (if first then X else O) :: alternating (negb first) n'
  end.

(** ** Notions used to state the properties *)

(** The three squares of the line hold the mark [m]. *)
Definition full_line (sq : JSArray.t) (l : line_t) (m : mark) : Prop :=
  let '(a, b, c) := l in
  sq.[a] = Mark m ∧ sq.[b] = Mark m ∧ sq.[c] = Mark m.

(** A board as [App] keeps it: nine squares, each [null] or a mark. *)
Definition is_board (sq : JSArray.t) : bool :=
  bool_decide (JSArray.length sq = 9)
  && forallb (fun k => negb (bool_decide (sq.[k] = Undefined))) (seqZ 0 9).

(** The part of the state the game is played on: everything but the theme. *)
Definition game (st : state) : JSArray.t * bool * winner_info * bool :=
  (squares st, xIsNext st, winnerInfo st, isDraw st).

(** The state that [handleSquareClick] sets when it does not return early. *)
Definition clicked (st : state) (i : Z) : state :=
  {| squares := JSArray.set (JSArray.slice (squares st)) i
                            (Mark (if xIsNext st then X else O));
     xIsNext := negb (xIsNext st);
     winnerInfo := winnerInfo st;
     isDraw := isDraw st;
     theme := theme st |}.

(** How many of the nine squares hold the mark [m]. *)
Definition holds (m : mark) (sq : JSArray.t) (k : Z) : Z :=
  if bool_decide (sq.[k] = Mark m) then 1 else 0.

Definition count_mark (m : mark) (sq : JSArray.t) : Z :=
  foldr Z.add 0 (holds m sq <$> seqZ 0 9).

(** What every state reached through the user interface satisfies: the
    board has its nine squares, the stored outcome is the one the effect
    computes from the board, and X has played as often as O, or once more
    when it is O's turn. *)
Definition consistent (st : state) : Prop :=
  is_board (squares st) = true
  ∧ (winnerInfo st, isDraw st) = outcome_of_board (squares st)
  ∧ count_mark X (squares st) - count_mark O (squares st)
    = if xIsNext st then 0 else 1.

(** The board of the draw scenario, [X,O,X,O,X,O,O,X,O] in index order. *)
Definition scenario_board : JSArray.t :=
  JSArray.of_list
    [Mark X; Mark O; Mark X; Mark O; Mark X; Mark O; Mark O; Mark X; Mark O].

(** A game that ends in a draw: X takes 0, 2, 3, 7, 8 and O takes 1, 4, 5, 6. *)
Definition drawn_game : list event :=
  [Click 0; Click 1; Click 2; Click 4; Click 3; Click 5; Click 7; Click 6;
   Click 8].

Definition drawn_board : JSArray.t :=
  JSArray.of_list
    [Mark X; Mark O; Mark X; Mark X; Mark O; Mark O; Mark O; Mark X; Mark X].

(** The game of the win scenario: X takes 0, 1, 2 and O takes 4, 5. *)
Definition won_game : list event :=
  [Click 0; Click 4; Click 1; Click 5; Click 2].

(** ** Rendering *)

(** The strings that the marks and the themes are. *)
Definition mark_string (m : mark) : string :=
  match m with X => "X" | O => "O" end.

Definition theme_string (t : theme_t) : string :=
  match t with light => "light" | dark => "dark" end.

(** The [button] that [Square] returns; [onClick] is what a click on it
    gives. *)
Record button (A : Type) : Type := Button {
  className : string;
  onClick : A;
  ariaLabel : string;
  tabIndex : Z;
  children : value
}.
Arguments Button {A}.
Arguments className {A}.
Arguments onClick {A}.
Arguments ariaLabel {A}.
Arguments tabIndex {A}.
Arguments children {A}.

(** [Square]. The property [highlight] is [null], [true] or [false]; the
    label is [`square with ${value}`] for a truthy value. *)
Definition Square {A : Type}
    (v : value) (click : A) (highlight : option bool) : button A :=
  {| className :=
       "ttt-square" +:+ (if default false highlight then " highlight" else "");
     onClick := click;
     ariaLabel :=
       match v with
       | Mark m => "square with " +:+ mark_string m
       | Undefined | Null => "empty square"
       end;
     tabIndex := 0;
     children := v |}.

(** [line.includes(i)] *)
Definition includes (l : line_t) (i : Z) : bool :=
  let '(a, b, c) := l in bool_decide (i ∈ [a; b; c]).

(** [renderSquare] of [Board], with the [key] of the element;
    [highlight] is [winningLine && winningLine.includes(i)]. *)
Definition renderSquare {A : Type} (sq : JSArray.t) (onSquareClick : Z → A)
    (winningLine : option line_t) (i : Z) : Z * button A :=
  (i, Square sq.[i] (onSquareClick i)
             (match winningLine with
              | None => None
              | Some l => Some (includes l i)
              end)).

(** [Board]: three rows, keyed by [row], of three squares. *)
Definition Board {A : Type} (sq : JSArray.t) (onSquareClick : Z → A)
    (winningLine : option line_t) : list (Z * list (Z * button A)) :=
  (fun row =>
     (row, (fun col => renderSquare sq onSquareClick winningLine (row * 3 + col))
             <$> [0; 1; 2]))
  <$> [0; 1; 2].

(** The [div] that [renderStatus] returns: its class, its text and the
    content of its [span], if it has one. *)
Record status_line : Type := StatusLine {
  statusClass : string;
  statusText : string;
  statusSpan : option value
}.

Definition renderStatus (st : state) : status_line :=
  if truthy (winner (winnerInfo st)) then
    {| statusClass := "ttt-status winner";
       statusText := "Winner: ";
       statusSpan := Some (winner (winnerInfo st)) |}
  else if isDraw st then
    {| statusClass := "ttt-status draw";
       statusText := "It's a Draw!";
       statusSpan := None |}
  else
    {| statusClass := "ttt-status turn";
       statusText := "Turn: ";
       statusSpan := Some (Mark (if xIsNext st then X else O)) |}.

(** What [App] renders and sets from a state: the attribute [data-theme] of
    the document (the theme effect), the label of the theme button, the
    status line, and the board, whose squares are wired to
    [handleSquareClick]. *)
Record view : Type := View {
  dataTheme : string;
  themeToggleLabel : string;
  status : status_line;
  board : list (Z * list (Z * button state))
}.

Definition App (st : state) : view :=
  {| dataTheme := theme_string (theme st);
     themeToggleLabel :=
       "Switch to "
       +:+ (if bool_decide (theme st = light) then "dark" else "light")
       +:+ " mode";
     status := renderStatus st;
     board := Board (squares st) (fun i => applyMove i st)
                    (line (winnerInfo st)) |}.

(** The squares of a rendered board, in reading order. *)
Definition board_squares {A : Type}
    (b : list (Z * list (Z * button A))) : list (Z * button A) :=
  b ≫= snd.

(** ** Further notions *)

#[global] Instance event_eq_dec : EqDecision event.
Proof. solve_decision. Defined.

(** How often the theme button is clicked in a sequence of events. *)
Definition theme_clicks (evs : list event) : nat :=
  length (filter (fun e => e = ToggleTheme) evs).

(** The stored outcome is the one the effect computes from the board. *)
Definition synced (st : state) : Prop :=
  (winnerInfo st, isDraw st) = outcome_of_board (squares st).

(** The player who moved last. *)
Definition last_mover (st : state) : mark := if xIsNext st then O else X.

(** Every full line holds the mark of the player who moved last. *)
Definition full_lines_of_last_mover (st : state) : Prop :=
  ∀ l m, l ∈ lines → full_line (squares st) l m → m = last_mover st.

(** ** Facts about arrays *)

Section array_facts.
Implicit Types (a : JSArray.t) (i j k : Z) (v : value).

Lemma get_set_eq a i v : (JSArray.set a i v).[i] = v.
Proof. unfold JSArray.get, JSArray.set; simpl. by rewrite lookup_insert_eq. Qed.

Lemma get_set_ne a i j v : i ≠ j → (JSArray.set a i v).[j] = a.[j].
Proof.
  intros Hne. unfold JSArray.get, JSArray.set; simpl.
  by rewrite lookup_insert_ne.
Qed.

Lemma lookup_slice a j :
  JSArray.props (JSArray.slice a) !! j
  = if bool_decide (0 <= j < JSArray.length a)
    then JSArray.props a !! j else None.
Proof.
  unfold JSArray.slice; simpl. rewrite map_lookup_filter.
  destruct (JSArray.props a !! j) as [v|]; simpl.
  - case_bool_decide; case_guard; simpl in *; done.
  - by case_bool_decide.
Qed.

Lemma get_slice a j :
  0 <= j < JSArray.length a → (JSArray.slice a).[j] = a.[j].
Proof.
  intros Hj. unfold JSArray.get. rewrite lookup_slice.
  by rewrite bool_decide_eq_true_2.
Qed.

Lemma get_slice_outside a j :
  ¬ (0 <= j < JSArray.length a) → (JSArray.slice a).[j] = Undefined.
Proof.
  intros Hj. unfold JSArray.get. rewrite lookup_slice.
  by rewrite bool_decide_eq_false_2.
Qed.

Lemma length_slice a : JSArray.length (JSArray.slice a) = JSArray.length a.
Proof. reflexivity. Qed.

Lemma length_set_inside a i v :
  i < JSArray.length a → JSArray.length (JSArray.set a i v) = JSArray.length a.
Proof.
  intros Hi. unfold JSArray.set; simpl.
  destruct (JSArray.is_index i); simpl; [|done].
  destruct (Z.leb_spec (JSArray.length a) i); [lia|done].
Qed.

Lemma length_set_grow a i v :
  0 <= i < 2 ^ 32 - 1 → JSArray.length a <= i →
  JSArray.length (JSArray.set a i v) = i + 1.
Proof.
  intros Hi Hlen. unfold JSArray.set, JSArray.is_index; simpl.
  destruct (Z.leb_spec 0 i); [|lia].
  destruct (Z.ltb_spec i (2 ^ 32 - 1)); [|lia].
  destruct (Z.leb_spec (JSArray.length a) i); [done|lia].
Qed.

Lemma every_true (f : value → bool) a :
  JSArray.every f a = true ↔
  ∀ k w, 0 <= k < JSArray.length a →
         JSArray.props a !! k = Some w → f w = true.
Proof.
  unfold JSArray.every. rewrite forallb_forall. split.
  - intros H k w Hk Hw. specialize (H k).
    rewrite Hw in H. apply H, list_elem_of_In, elem_of_seqZ. lia.
  - intros H k Hin. apply list_elem_of_In, elem_of_seqZ in Hin.
    destruct (JSArray.props a !! k) as [w|] eqn:Hw; [|done].
    apply (H k w); [lia|done].
Qed.

Lemma truthy_Mark v : truthy v = true ↔ ∃ m, v = Mark m.
Proof.
  destruct v; simpl; split; try done; try (by intros [? ?]); eauto.
Qed.

Lemma strict_eq_true v w : strict_eq v w = true ↔ v = w.
Proof. unfold strict_eq. apply bool_decide_eq_true. Qed.

End array_facts.

(** ** Facts about [calculateWinner] *)

Lemma line_wins_full sq l :
  line_wins sq l = true ↔ ∃ m, full_line sq l m.
Proof.
  destruct l as [[a b] c]. unfold line_wins, full_line.
  rewrite !andb_true_iff, truthy_Mark, !strict_eq_true. split.
  - intros [[[m Hm] Hb] Hc]. exists m. by rewrite <- Hb, <- Hc.
  - intros (m & Ha & Hb & Hc). rewrite Ha, Hb, Hc. eauto.
Qed.

Lemma full_line_wins sq l m : full_line sq l m → line_wins sq l = true.
Proof. intros H. apply line_wins_full. eauto. Qed.

(** The loop returns the first line of [ls] that passes the test, with the
    value of its first square; or the null pair when none passes. *)
Lemma scan_lines_spec sq ls :
  match line (scan_lines sq ls) with
  | Some l =>
      ∃ k : nat, ls !! k = Some l ∧ line_wins sq l = true
        ∧ winner (scan_lines sq ls) = sq.[l.1.1]
        ∧ ∀ (k' : nat) l', (k' < k)%nat → ls !! k' = Some l' →
                           line_wins sq l' = false
  | None =>
      winner (scan_lines sq ls) = Null
      ∧ ∀ l, l ∈ ls → line_wins sq l = false
  end.
Proof.
  induction ls as [|l rest IH]; simpl.
  - split; [done|]. intros l Hl. by apply elem_of_nil in Hl.
  - destruct l as [[a b] c].
    destruct (line_wins sq (a, b, c)) eqn:Hw; simpl.
    + exists 0%nat. repeat split; try done. intros k' l' Hk'. lia.
    + destruct (line (scan_lines sq rest)) as [l|].
      * destruct IH as (k & Hk & Hl & Hwin & Hfirst).
        exists (S k). repeat split; try done.
        intros [|k'] l' Hlt Hl'; simpl in Hl'.
        -- by injection Hl' as <-.
        -- apply (Hfirst k'); [lia|done].
      * destruct IH as [Hnull Hnone]. split; [done|].
        intros l Hl. apply elem_of_cons in Hl as [->|Hl]; auto.
Qed.

Lemma calculateWinner_spec sq :
  match line (calculateWinner sq) with
  | Some l =>
      ∃ k : nat, lines !! k = Some l ∧ line_wins sq l = true
        ∧ winner (calculateWinner sq) = sq.[l.1.1]
        ∧ ∀ (k' : nat) l', (k' < k)%nat → lines !! k' = Some l' →
                           line_wins sq l' = false
  | None =>
      winner (calculateWinner sq) = Null
      ∧ ∀ l, l ∈ lines → line_wins sq l = false
  end.
Proof. apply scan_lines_spec. Qed.

Lemma full_line_first sq l m : full_line sq l m → sq.[l.1.1] = Mark m.
Proof. destruct l as [[a b] c]. by intros (Ha & _ & _). Qed.

Lemma full_line_mark_unique sq l m m' :
  full_line sq l m → full_line sq l m' → m = m'.
Proof.
  intros H H'. apply full_line_first in H, H'. congruence.
Qed.

(** A full line that no earlier line of the enumeration beats is the one
    [calculateWinner] returns. *)
Lemma calculateWinner_first sq (k : nat) l m :
  lines !! k = Some l → full_line sq l m →
  (∀ (k' : nat) l' m', (k' < k)%nat → lines !! k' = Some l' →
                       ¬ full_line sq l' m') →
  calculateWinner sq = {| winner := Mark m; line := Some l |}.
Proof.
  intros Hk Hfull Hearlier.
  pose proof (calculateWinner_spec sq) as Hspec.
  destruct (calculateWinner sq) as [w [l0|]] eqn:Hcw; simpl in Hspec.
  - destruct Hspec as (k0 & Hk0 & Hwin0 & Hw & Hfirst).
    destruct (Nat.lt_trichotomy k0 k) as [Hlt|[->|Hgt]].
    + apply line_wins_full in Hwin0 as [m0 Hm0].
      by destruct (Hearlier k0 l0 m0 Hlt Hk0).
    + assert (l0 = l) as -> by congruence.
      by rewrite Hw, (full_line_first _ _ _ Hfull).
    + pose proof (Hfirst k l Hgt Hk) as Hlose.
      by rewrite (full_line_wins _ _ _ Hfull) in Hlose.
  - destruct Hspec as [_ Hnone].
    assert (l ∈ lines) as Hin by (by eapply list_elem_of_lookup_2).
    apply Hnone in Hin. by rewrite (full_line_wins _ _ _ Hfull) in Hin.
Qed.

Lemma computeOutcome_winner sq m ol :
  calculateWinner sq = {| winner := Mark m; line := ol |} →
  computeOutcome sq = Won m ol.
Proof.
  intros H. unfold computeOutcome, outcome_of_board. by rewrite H.
Qed.

Lemma computeOutcome_no_winner sq :
  (∀ l, l ∈ lines → line_wins sq l = false) →
  computeOutcome sq = if JSArray.every truthy sq then Draw else InProgress.
Proof.
  intros Hnone. pose proof (calculateWinner_spec sq) as Hspec.
  unfold computeOutcome, outcome_of_board.
  destruct (calculateWinner sq) as [w [l0|]]; simpl in *.
  - destruct Hspec as (k0 & Hk0 & Hwin0 & _).
    apply list_elem_of_lookup_2, Hnone in Hk0. congruence.
  - destruct Hspec as [-> _]. simpl. by destruct (JSArray.every truthy sq).
Qed.

(** ** Win detection *)

(** C2. [computeOutcome] goes through exactly the eight triples, rows, then
    columns, then diagonals, in that order. On every board, a line whose
    three squares hold the same mark and that no earlier line of the
    enumeration beats is returned as [Won] with that mark and that exact
    line; whenever some line is full the result is [Won] with the first full
    line of the enumeration; and a board with a single full line gets
    exactly that line. *)
Theorem computeOutcome_first_full_line :
  lines = [ (0, 1, 2); (3, 4, 5); (6, 7, 8);
            (0, 3, 6); (1, 4, 7); (2, 5, 8);
            (0, 4, 8); (2, 4, 6) ]
  ∧ ∀ sq : JSArray.t,
      (∀ (k : nat) l m,
          lines !! k = Some l → full_line sq l m →
          (∀ (k' : nat) l' m', (k' < k)%nat → lines !! k' = Some l' →
                               ¬ full_line sq l' m') →
          computeOutcome sq = Won m (Some l))
      ∧ (∀ l m,
          l ∈ lines → full_line sq l m →
          ∃ (k : nat) l' m',
            lines !! k = Some l' ∧ full_line sq l' m'
            ∧ (∀ (k' : nat) l'' m'', (k' < k)%nat → lines !! k' = Some l'' →
                                     ¬ full_line sq l'' m'')
            ∧ computeOutcome sq = Won m' (Some l'))
      ∧ (∀ l m,
          l ∈ lines → full_line sq l m →
          (∀ l' m', l' ∈ lines → full_line sq l' m' → l' = l) →
          computeOutcome sq = Won m (Some l)).
Proof.
  split; [reflexivity|]. intros sq.
  assert (∀ l m, l ∈ lines → full_line sq l m →
          ∃ (k : nat) l' m',
            lines !! k = Some l' ∧ full_line sq l' m'
            ∧ (∀ (k' : nat) l'' m'', (k' < k)%nat → lines !! k' = Some l'' →
                                     ¬ full_line sq l'' m'')
            ∧ computeOutcome sq = Won m' (Some l')) as Hsome.
  { intros l m Hin Hfull.
    pose proof (calculateWinner_spec sq) as Hspec.
    destruct (line (calculateWinner sq)) as [l0|] eqn:Hline.
    - destruct Hspec as (k0 & Hk0 & Hwin0 & _ & Hfirst).
      apply line_wins_full in Hwin0 as [m0 Hm0].
      assert (∀ (k' : nat) l'' m'', (k' < k0)%nat → lines !! k' = Some l'' →
                                    ¬ full_line sq l'' m'') as Hearlier.
      { intros k' l'' m'' Hlt Hl'' Hfull''.
        apply full_line_wins in Hfull''. by rewrite (Hfirst k' l'') in Hfull''. }
      exists k0, l0, m0. repeat split; try done.
      apply computeOutcome_winner. by apply (calculateWinner_first sq k0).
    - destruct Hspec as [_ Hnone]. apply Hnone in Hin.
      by rewrite (full_line_wins _ _ _ Hfull) in Hin. }
  repeat split.
  - intros k l m Hk Hfull Hearlier.
    apply computeOutcome_winner. by apply (calculateWinner_first sq k).
  - exact Hsome.
  - intros l m Hin Hfull Honly.
    destruct (Hsome l m Hin Hfull) as (k & l' & m' & Hk & Hfull' & _ & ->).
    assert (l' = l) as -> by (eapply Honly; [by eapply list_elem_of_lookup_2|done]).
    by rewrite (full_line_mark_unique _ _ _ _ Hfull Hfull').
Qed.

(** The top row of X wins, although the left column is full of X as well:
    the row comes first in the enumeration. *)
Lemma computeOutcome_first_full_line_witness :
  computeOutcome
    (JSArray.of_list
       [Mark X; Mark X; Mark X; Mark X; Mark O; Mark O; Mark X; Null; Mark O])
  = Won X (Some (0, 1, 2)).
Proof.
  apply (proj1 (proj2 computeOutcome_first_full_line _) 0%nat (0, 1, 2) X).
  - reflexivity.
  - repeat split; reflexivity.
  - intros k' l' m' Hlt. lia.
Defined.

(** C10. On every array (the nine-square boards among them),
    [calculateWinner] returns a pair whose two fields are both null, or
    both non-null; in the second case the line is one of the eight triples
    and its three squares hold exactly the winner's mark. *)
Theorem calculateWinner_consistent (sq : JSArray.t) :
  (winner (calculateWinner sq) = Null ∧ line (calculateWinner sq) = None)
  ∨ (∃ m l,
        winner (calculateWinner sq) = Mark m
        ∧ line (calculateWinner sq) = Some l
        ∧ l ∈ lines
        ∧ full_line sq l m).
Proof.
  pose proof (calculateWinner_spec sq) as Hspec.
  destruct (line (calculateWinner sq)) as [l|].
  - right. destruct Hspec as (k & Hk & Hwin & Hw & _).
    apply line_wins_full in Hwin as [m Hm].
    exists m, l. rewrite Hw, (full_line_first _ _ _ Hm).
    repeat split; try done. by eapply list_elem_of_lookup_2.
  - left. by destruct Hspec as [-> _].
Qed.

(** ** Boards *)

Lemma is_board_spec sq :
  is_board sq = true ↔
  JSArray.length sq = 9 ∧ ∀ k, 0 <= k < 9 → sq.[k] ≠ Undefined.
Proof.
  unfold is_board.
  rewrite andb_true_iff, bool_decide_eq_true, forallb_forall. split.
  - intros [Hlen Hall]. split; [done|]. intros k Hk.
    assert (In k (seqZ 0 9)) as Hin by (apply list_elem_of_In, elem_of_seqZ; lia).
    apply Hall, negb_true_iff, bool_decide_eq_false in Hin. done.
  - intros [Hlen Hall]. split; [done|]. intros k Hin.
    apply list_elem_of_In, elem_of_seqZ in Hin.
    apply negb_true_iff, bool_decide_eq_false, Hall. lia.
Qed.

Lemma get_lookup (a : JSArray.t) k w : JSArray.props a !! k = Some w → a.[k] = w.
Proof. unfold JSArray.get. by intros ->. Qed.

Lemma lookup_get (a : JSArray.t) k :
  a.[k] ≠ Undefined → JSArray.props a !! k = Some a.[k].
Proof. unfold JSArray.get. by destruct (JSArray.props a !! k). Qed.

Lemma falsy_not_Mark v m : truthy v = false → v ≠ Mark m.
Proof. by intros H ->. Qed.

Lemma board_square_truthy sq k :
  is_board sq = true → 0 <= k < 9 → sq.[k] ≠ Null → truthy sq.[k] = true.
Proof.
  intros [_ Hdef]%is_board_spec Hk Hnn. specialize (Hdef k Hk).
  by destruct sq.[k].
Qed.

(** On a board, [every(Boolean)] says that no square is [null]. *)
Lemma every_truthy_board sq :
  is_board sq = true →
  JSArray.every truthy sq = true ↔ ∀ k, 0 <= k < 9 → sq.[k] ≠ Null.
Proof.
  intros Hb. pose proof Hb as [Hlen Hdef]%is_board_spec.
  rewrite every_true, Hlen. split.
  - intros H k Hk Hnull.
    specialize (H k Null Hk). rewrite lookup_get, Hnull in H.
    + by specialize (H eq_refl).
    + by rewrite Hnull.
  - intros H k w Hk Hw. apply get_lookup in Hw as <-.
    apply board_square_truthy; auto.
Qed.

Lemma computeOutcome_no_line sq :
  is_board sq = true →
  (∀ l m, l ∈ lines → ¬ full_line sq l m) →
  ((∀ k, 0 <= k <= 8 → sq.[k] ≠ Null) → computeOutcome sq = Draw)
  ∧ ((∃ k, 0 <= k <= 8 ∧ sq.[k] = Null) → computeOutcome sq = InProgress).
Proof.
  intros Hb Hnone.
  assert (∀ l, l ∈ lines → line_wins sq l = false) as Hlose.
  { intros l Hin. destruct (line_wins sq l) eqn:Hw; [|done].
    apply line_wins_full in Hw as [m Hm]. by destruct (Hnone l m). }
  rewrite (computeOutcome_no_winner _ Hlose). split.
  - intros Hfull.
    assert (JSArray.every truthy sq = true) as ->; [|done].
    apply every_truthy_board; [done|]. intros k Hk. apply Hfull. lia.
  - intros (k & Hk & Hnull).
    destruct (JSArray.every truthy sq) eqn:Hev; [|done].
    rewrite every_truthy_board in Hev by done.
    destruct (Hev k); [lia|done].
Qed.

(** ** Counting marks *)

Lemma sum_pointwise (f g : Z → Z) (l : list Z) :
  (∀ k, k ∈ l → g k = f k) →
  foldr Z.add 0 (g <$> l) = foldr Z.add 0 (f <$> l).
Proof.
  induction l as [|x l IH]; intros Heq; csimpl; [done|].
  rewrite Heq by apply list_elem_of_here.
  rewrite IH; [done|]. intros k Hk. by apply Heq, list_elem_of_further.
Qed.

Lemma sum_update (f g : Z → Z) (l : list Z) (i : Z) :
  NoDup l → i ∈ l →
  (∀ k, k ∈ l → k ≠ i → g k = f k) →
  foldr Z.add 0 (g <$> l) = foldr Z.add 0 (f <$> l) + g i - f i.
Proof.
  induction l as [|x l IH]; intros Hnd Hin Heq.
  - by apply elem_of_nil in Hin.
  - apply NoDup_cons in Hnd as [Hx Hnd]. csimpl.
    destruct (decide (x = i)) as [->|Hne].
    + rewrite (sum_pointwise f g l); [lia|].
      intros k Hk. apply Heq; [by apply list_elem_of_further|].
      by intros ->.
    + apply elem_of_cons in Hin as [->|Hin]; [done|].
      rewrite IH; try done.
      * rewrite (Heq x); [lia|apply list_elem_of_here|done].
      * intros k Hk. by apply Heq, list_elem_of_further.
Qed.

(** An accepted click on a board adds one to the count of the mark it
    writes and leaves the other count alone. *)
Lemma count_mark_click sq i m m' :
  JSArray.length sq = 9 → 0 <= i < 9 → truthy sq.[i] = false →
  count_mark m' (JSArray.set (JSArray.slice sq) i (Mark m))
  = count_mark m' sq + (if bool_decide (m' = m) then 1 else 0).
Proof.
  intros Hlen Hi Hfalsy. unfold count_mark.
  rewrite (sum_update (holds m' sq) _ _ i).
  - unfold holds. rewrite get_set_eq.
    rewrite (bool_decide_eq_false_2 (sq.[i] = Mark m'))
      by by apply falsy_not_Mark.
    repeat case_bool_decide; try lia; congruence.
  - apply NoDup_seqZ.
  - apply elem_of_seqZ. lia.
  - intros k Hk%elem_of_seqZ Hne. unfold holds.
    rewrite get_set_ne by done. rewrite get_slice by lia. done.
Qed.

(** ** The handlers *)

Lemma rendered_squares_range i : i ∈ rendered_squares ↔ 0 <= i <= 8.
Proof.
  change rendered_squares with (seqZ 0 9). rewrite elem_of_seqZ. lia.
Qed.

Lemma ui_click_range i : ui_event (Click i) = true ↔ 0 <= i <= 8.
Proof. simpl. by rewrite bool_decide_eq_true, rendered_squares_range. Qed.

Lemma squares_outcome_effect st : squares (outcome_effect st) = squares st.
Proof. unfold outcome_effect. by destruct (outcome_of_board (squares st)). Qed.

Lemma xIsNext_outcome_effect st : xIsNext (outcome_effect st) = xIsNext st.
Proof. unfold outcome_effect. by destruct (outcome_of_board (squares st)). Qed.

Lemma theme_outcome_effect st : theme (outcome_effect st) = theme st.
Proof. unfold outcome_effect. by destruct (outcome_of_board (squares st)). Qed.

Lemma stored_outcome_effect st :
  (winnerInfo (outcome_effect st), isDraw (outcome_effect st))
  = outcome_of_board (squares st).
Proof. unfold outcome_effect. by destruct (outcome_of_board (squares st)). Qed.

Lemma outcome_outcome_effect st :
  outcome (outcome_effect st) = computeOutcome (squares st).
Proof.
  unfold outcome, computeOutcome, outcome_effect.
  by destruct (outcome_of_board (squares st)).
Qed.

Lemma squares_clicked st i :
  squares (clicked st i)
  = JSArray.set (JSArray.slice (squares st)) i
                (Mark (if xIsNext st then X else O)).
Proof. reflexivity. Qed.

Create Rewrite HintDb app_state.
#[local] Hint Rewrite squares_outcome_effect xIsNext_outcome_effect
  theme_outcome_effect stored_outcome_effect outcome_outcome_effect
  squares_clicked : app_state.

Lemma handleSquareClick_cases st i :
  (handleSquareClick st i = None
   ∧ (truthy (winner (winnerInfo st)) = true ∨ truthy (squares st).[i] = true))
  ∨ (handleSquareClick st i = Some (clicked st i)
     ∧ truthy (winner (winnerInfo st)) = false
     ∧ truthy (squares st).[i] = false).
Proof.
  unfold handleSquareClick.
  destruct (truthy (winner (winnerInfo st))); simpl; [by auto|].
  destruct (truthy (squares st).[i]); simpl; [by auto|].
  right. by destruct st.
Qed.

Lemma applyMove_ignored st i :
  truthy (winner (winnerInfo st)) = true ∨ truthy (squares st).[i] = true →
  applyMove i st = st.
Proof.
  intros H. unfold applyMove.
  destruct (handleSquareClick_cases st i) as [[-> _]|(_ & Hw & Hs)]; [done|].
  destruct H; congruence.
Qed.

Lemma applyMove_accepted st i :
  truthy (winner (winnerInfo st)) = false →
  truthy (squares st).[i] = false →
  applyMove i st = outcome_effect (clicked st i).
Proof.
  intros Hw Hs. unfold applyMove.
  destruct (handleSquareClick_cases st i) as [[_ H]|(-> & _)]; [|done].
  destruct H; congruence.
Qed.

Lemma decode_outcome_InProgress w d :
  decode_outcome w d = InProgress → truthy (winner w) = false ∧ d = false.
Proof. unfold decode_outcome. by destruct (winner w), d. Qed.

Lemma decode_outcome_terminal w d :
  decode_outcome w d ≠ InProgress → truthy (winner w) = true ∨ d = true.
Proof. unfold decode_outcome. destruct (winner w), d; simpl; auto. Qed.

Lemma clicked_board st i :
  is_board (squares st) = true → 0 <= i <= 8 →
  is_board (squares (clicked st i)) = true.
Proof.
  intros [Hlen Hdef]%is_board_spec Hi. apply is_board_spec.
  rewrite squares_clicked. split.
  - rewrite length_set_inside; rewrite length_slice; lia.
  - intros k Hk. destruct (decide (i = k)) as [->|Hne].
    + by rewrite get_set_eq.
    + rewrite get_set_ne by done. rewrite get_slice by lia. by apply Hdef.
Qed.

(** ** The invariant of the states reached through the user interface *)

Lemma consistent_init : consistent init.
Proof. repeat split. Qed.

Lemma consistent_reset st : consistent (reset st).
Proof. destruct st. repeat split. Qed.

Lemma consistent_toggleTheme st : consistent st → consistent (toggleTheme st).
Proof. by destruct st. Qed.

Lemma consistent_applyMove st i :
  0 <= i <= 8 → consistent st → consistent (applyMove i st).
Proof.
  intros Hi (Hb & Hout & Hcount).
  destruct (handleSquareClick_cases st i) as [[_ H]|(_ & Hw & Hs)].
  - rewrite applyMove_ignored by done. by repeat split.
  - rewrite applyMove_accepted by done.
    pose proof Hb as [Hlen _]%is_board_spec.
    unfold consistent.
    rewrite squares_outcome_effect, xIsNext_outcome_effect,
      stored_outcome_effect.
    split; [by apply clicked_board|]. split; [done|].
    rewrite squares_clicked, !count_mark_click by (done || lia).
    change (xIsNext (clicked st i)) with (negb (xIsNext st)).
    destruct (xIsNext st); cbn [negb] in *;
      repeat case_bool_decide; try done; lia.
Qed.

Lemma consistent_step e st :
  ui_event e = true → consistent st → consistent (step e st).
Proof.
  destruct e as [i| |]; simpl step.
  - intros Hi%ui_click_range. by apply consistent_applyMove.
  - intros _ _. apply consistent_reset.
  - intros _. apply consistent_toggleTheme.
Qed.

Lemma consistent_run evs st :
  forallb ui_event evs = true → consistent st → consistent (run evs st).
Proof.
  revert st. induction evs as [|e evs IH]; intros st Hui Hst; [done|].
  simpl in Hui. apply andb_true_iff in Hui as [He Hui].
  simpl. apply IH; [done|]. by apply consistent_step.
Qed.

Lemma reachable_consistent evs :
  forallb ui_event evs = true → consistent (run evs init).
Proof. intros Hui. apply consistent_run; [done|apply consistent_init]. Qed.

(** ** Accepted moves *)

Lemma marks_written_alternate clicks st :
  marks_written clicks st
  = alternating (xIsNext st) (length (marks_written clicks st))
  ∧ xIsNext (run (Click <$> clicks) st)
    = if Nat.even (length (marks_written clicks st))
      then xIsNext st else negb (xIsNext st).
Proof.
  revert st. induction clicks as [|i clicks IH]; intros st; [done|].
  csimpl. unfold applyMove.
  destruct (handleSquareClick_cases st i) as [[-> _]|(-> & _)].
  - apply IH.
  - destruct (IH (outcome_effect (clicked st i))) as [IHm IHx].
    rewrite xIsNext_outcome_effect in IHm, IHx.
    change (xIsNext (clicked st i)) with (negb (xIsNext st)) in IHm, IHx.
    split.
    + simpl. by rewrite <- IHm.
    + rewrite IHx. cbn [length]. rewrite Nat.even_succ, <- Nat.negb_even.
      destruct (Nat.even _), (xIsNext st); done.
Qed.

(** C1. A click on an empty square of the nine, while the game is in
    progress, writes the mark of the player whose turn it is, passes the turn
    to the other player and stores the outcome computed from the new board.
    Consequently, from the initial state, the marks written by any sequence
    of clicks are X, O, X, O, ... in this order, and it is X's turn exactly
    after an even number of accepted moves. *)
Theorem applyMove_accepted_move :
  (∀ (st : state) (i : Z),
      0 <= i <= 8 → outcome st = InProgress → (squares st).[i] = Null →
      (squares (applyMove i st)).[i] = Mark (if xIsNext st then X else O)
      ∧ xIsNext (applyMove i st) = negb (xIsNext st)
      ∧ outcome (applyMove i st) = computeOutcome (squares (applyMove i st))
      ∧ (winnerInfo (applyMove i st), isDraw (applyMove i st))
        = outcome_of_board (squares (applyMove i st)))
  ∧ (∀ clicks : list Z,
        marks_written clicks init
        = alternating true (length (marks_written clicks init))
        ∧ xIsNext (run (Click <$> clicks) init)
          = Nat.even (length (marks_written clicks init))).
Proof.
  split.
  - intros st i Hi [Hw _]%decode_outcome_InProgress Hnull.
    rewrite applyMove_accepted by (done || by rewrite Hnull).
    autorewrite with app_state. by rewrite get_set_eq.
  - intros clicks. destruct (marks_written_alternate clicks init) as [Hm Hx].
    split; [done|]. rewrite Hx. by destruct (Nat.even _).
Qed.

(** The first click of a game, on the centre square. *)
Lemma applyMove_accepted_move_witness :
  (squares (applyMove 4 init)).[4] = Mark X
  ∧ xIsNext (applyMove 4 init) = false
  ∧ outcome (applyMove 4 init) = computeOutcome (squares (applyMove 4 init))
  ∧ (winnerInfo (applyMove 4 init), isDraw (applyMove 4 init))
    = outcome_of_board (squares (applyMove 4 init)).
Proof.
  apply (proj1 applyMove_accepted_move init 4).
  - lia.
  - reflexivity.
  - reflexivity.
Defined.

(** C9. An accepted move on square [i] of a nine-square board leaves every
    other square [j] as it was: the new board is a copy of the old one with
    the single square [i] written, and it has nine squares again. *)
Theorem applyMove_other_squares (st : state) (i j : Z) :
  0 <= i <= 8 → JSArray.length (squares st) = 9 →
  outcome st = InProgress → (squares st).[i] = Null →
  0 <= j <= 8 → j ≠ i →
  (squares (applyMove i st)).[j] = (squares st).[j]
  ∧ squares (applyMove i st)
    = JSArray.set (JSArray.slice (squares st)) i
                  (Mark (if xIsNext st then X else O))
  ∧ JSArray.length (squares (applyMove i st)) = 9.
Proof.
  intros Hi Hlen [Hw _]%decode_outcome_InProgress Hnull Hj Hne.
  rewrite applyMove_accepted by (done || by rewrite Hnull).
  autorewrite with app_state. repeat split.
  - rewrite get_set_ne by done. rewrite get_slice by lia. done.
  - rewrite length_set_inside; rewrite length_slice; lia.
Qed.

(** After X has taken square 0, O's move on square 4 leaves square 0 alone. *)
Lemma applyMove_other_squares_witness :
  (squares (applyMove 4 (applyMove 0 init))).[0] = Mark X.
Proof.
  apply (applyMove_other_squares (applyMove 0 init) 4 0);
    try lia; reflexivity.
Defined.

(** ** Ignored clicks *)

(** In a consistent state, a click on one of the nine squares is ignored as
    soon as the game is over or the square is taken. *)
Lemma consistent_guard st i :
  consistent st → 0 <= i <= 8 →
  outcome st ≠ InProgress ∨ (squares st).[i] ≠ Null →
  truthy (winner (winnerInfo st)) = true ∨ truthy (squares st).[i] = true.
Proof.
  intros (Hb & Hout & _) Hi [Hterm|Htaken].
  - apply decode_outcome_terminal in Hterm as [Hw|Hd]; [by left|right].
    unfold outcome_of_board in Hout.
    destruct (truthy (winner (calculateWinner (squares st)))); [congruence|].
    destruct (JSArray.every truthy (squares st)) eqn:Hev; [|congruence].
    rewrite every_truthy_board in Hev by done.
    apply board_square_truthy; [done|lia|apply Hev; lia].
  - right. apply board_square_truthy; [done|lia|done].
Qed.

Lemma outcome_toggleTheme st : outcome (toggleTheme st) = outcome st.
Proof. reflexivity. Qed.

Lemma outcome_reset st : outcome (reset st) = InProgress.
Proof. by destruct st. Qed.

(** C4. In every state reached through the user interface, a click on one of
    the nine squares changes nothing at all (board, turn, stored outcome,
    theme) when the game is won or drawn, or when the square is taken. Once
    the game is won or drawn, every event but the reset button leaves the
    outcome as it is, and the reset button brings it back to in progress. *)
Theorem applyMove_ignored_click (evs : list event) (i : Z) :
  forallb ui_event evs = true → 0 <= i <= 8 →
  outcome (run evs init) ≠ InProgress ∨ (squares (run evs init)).[i] ≠ Null →
  applyMove i (run evs init) = run evs init
  ∧ (outcome (run evs init) ≠ InProgress →
     (∀ e, ui_event e = true → e ≠ Reset →
           outcome (step e (run evs init)) = outcome (run evs init))
     ∧ outcome (step Reset (run evs init)) = InProgress).
Proof.
  intros Hui Hi Hinvalid.
  pose proof (reachable_consistent evs Hui) as Hcons.
  split.
  - by apply applyMove_ignored, consistent_guard.
  - intros Hterm. split; [|apply outcome_reset].
    intros [j| |] Hj Hne; simpl step.
    + apply ui_click_range in Hj.
      rewrite applyMove_ignored; [done|].
      apply consistent_guard; auto.
    + done.
    + apply outcome_toggleTheme.
Qed.

(** X has won with the top row; a click on square 4 changes nothing. *)
Lemma applyMove_ignored_click_witness :
  outcome (run won_game init) = Won X (Some (0, 1, 2))
  ∧ applyMove 4 (run won_game init) = run won_game init.
Proof.
  split; [reflexivity|].
  apply (applyMove_ignored_click won_game 4).
  - reflexivity.
  - lia.
  - left. vm_compute. discriminate.
Defined.

(** ** Clicks outside the board *)

Lemma lookup_fill_outside (a : JSArray.t) v i :
  ¬ (0 <= i < JSArray.length a) →
  JSArray.props (JSArray.fill a v) !! i = JSArray.props a !! i.
Proof.
  intros Hi. unfold JSArray.fill; simpl.
  assert (i ∉ seqZ 0 (JSArray.length a)) as Hnotin
    by (rewrite elem_of_seqZ; lia).
  induction (seqZ 0 (JSArray.length a)) as [|k l IH]; simpl; [done|].
  apply not_elem_of_cons in Hnotin as [Hne Hnotin].
  rewrite lookup_insert_ne by done. by apply IH.
Qed.

Lemma init_outside_undefined i : ¬ (0 <= i <= 8) → (squares init).[i] = Undefined.
Proof.
  intros Hi. unfold init. rewrite squares_outcome_effect.
  unfold JSArray.get. change (squares mount) with (JSArray.fill (JSArray.Array 9) Null).
  rewrite lookup_fill_outside by (simpl; lia). done.
Qed.


(** After a first click with index -1, which takes X's turn and leaves no
    mark on the nine squares, O moves first on the board and the board
    [X,O,X,O,X,O,O,X,O] can be filled. *)
Example scenario_board_after_outside_click :
  squares (run [Click (-1); Click 1; Click 0; Click 3; Click 2; Click 5;
                Click 4; Click 6; Click 7; Click 8] init)
  = scenario_board.
Proof. reflexivity. Qed.



(** ** Reset *)

(** C6. Whatever the state, the reset button gives the game its initial
    value again: nine squares, all [null], X to move, no winner and no draw,
    that is, the outcome in progress. Only the theme is kept. *)
Theorem reset_restores_initial (st : state) :
  game (reset st) = game init
  ∧ reset st = setTheme (theme st) init
  ∧ squares (reset st)
    = JSArray.of_list [Null; Null; Null; Null; Null; Null; Null; Null; Null]
  ∧ JSArray.length (squares (reset st)) = 9
  ∧ (∀ k, 0 <= k <= 8 → (squares (reset st)).[k] = Null)
  ∧ xIsNext (reset st) = true
  ∧ winnerInfo (reset st) = no_winner
  ∧ isDraw (reset st) = false
  ∧ outcome (reset st) = InProgress.
Proof.
  destruct st as [sq x w d t]. repeat split.
  intros k Hk.
  assert (k = 0 ∨ k = 1 ∨ k = 2 ∨ k = 3 ∨ k = 4 ∨ k = 5 ∨ k = 6 ∨ k = 7 ∨ k = 8)
    as Hcases by lia.
  destruct Hcases as [->|[->|[->|[->|[->|[->|[->|[->| ->]]]]]]]]; reflexivity.
Qed.

(** ** The theme *)

Lemma game_step_congr e st1 st2 :
  game st1 = game st2 → game (step e st1) = game (step e st2).
Proof.
  destruct st1 as [sq1 x1 w1 d1 t1], st2 as [sq2 x2 w2 d2 t2].
  unfold game; simpl. intros [= -> -> -> ->].
  destruct e as [i| |]; cbn [step]; try done.
  unfold applyMove, handleSquareClick; simpl.
  destruct (truthy (winner w2) || truthy sq2.[i]); [done|].
  unfold outcome_effect; simpl.
  by destruct (outcome_of_board _).
Qed.

Lemma game_run_congr evs st1 st2 :
  game st1 = game st2 → game (run evs st1) = game (run evs st2).
Proof.
  revert st1 st2. induction evs as [|e evs IH]; intros st1 st2 H; [done|].
  simpl. by apply IH, game_step_congr.
Qed.

Lemma theme_applyMove i st : theme (applyMove i st) = theme st.
Proof.
  unfold applyMove.
  destruct (handleSquareClick_cases st i) as [[-> _]|(-> & _)]; [done|].
  by rewrite theme_outcome_effect.
Qed.

(** C8. The theme button changes the theme and nothing else; clicks on the
    squares and the reset button never change the theme; and the theme has
    no influence on the game: from two states that differ in the theme only,
    a click, a reset, or any sequence of events, gives the same board, turn
    and outcome. *)
Theorem theme_independent (st : state) (i : Z) (t : theme_t) :
  game (toggleTheme st) = game st
  ∧ outcome (toggleTheme st) = outcome st
  ∧ theme (toggleTheme st) ≠ theme st
  ∧ theme (applyMove i st) = theme st
  ∧ theme (reset st) = theme st
  ∧ game (applyMove i (setTheme t st)) = game (applyMove i st)
  ∧ game (reset (setTheme t st)) = game (reset st)
  ∧ (∀ evs, game (run evs (setTheme t st)) = game (run evs st))
  ∧ (∀ evs, outcome (run evs (setTheme t st)) = outcome (run evs st)).
Proof.
  assert (game (setTheme t st) = game st) as Hgame by done.
  split; [done|]. split; [done|].
  split; [by destruct st as [sq x w d []]|].
  split; [apply theme_applyMove|].
  split; [unfold reset; by rewrite theme_outcome_effect|].
  split; [by apply (game_step_congr (Click i))|].
  split; [by apply (game_step_congr Reset)|].
  split.
  - intros evs. by apply game_run_congr.
  - intros evs. apply (game_run_congr evs) in Hgame.
    unfold game in Hgame. unfold outcome. congruence.
Qed.

(** ** Draws *)

Lemma no_line_wins_no_full_line sq :
  forallb (fun l => negb (line_wins sq l)) lines = true →
  ∀ l m, l ∈ lines → ¬ full_line sq l m.
Proof.
  rewrite forallb_forall. intros Hall l m Hin%list_elem_of_In Hfull.
  apply Hall in Hin. by rewrite (full_line_wins _ _ _ Hfull) in Hin.
Qed.

(** The scenario of C3 cannot be played. The board [X,O,X,O,X,O,O,X,O]
    holds four X and five O. X moves first and
    the turns alternate, so no sequence of clicks on the nine squares, resets
    and theme changes leads from the initial state to this board. *)
Lemma scenario_board_not_played :
  count_mark X scenario_board = 4
  ∧ count_mark O scenario_board = 5
  ∧ ¬ ∃ evs, forallb ui_event evs = true
             ∧ squares (run evs init) = scenario_board.
Proof.
  split; [reflexivity|]. split; [reflexivity|].
  intros (evs & Hui & Hsq).
  destruct (reachable_consistent evs Hui) as (_ & _ & Hcount).
  rewrite Hsq in Hcount.
  change (count_mark X scenario_board) with 4 in Hcount.
  change (count_mark O scenario_board) with 5 in Hcount.
  destruct (xIsNext (run evs init)); lia.
Qed.

(** C3, amended. On a nine-square board with no winning triple,
    [computeOutcome] returns [Draw] when no square is empty and [InProgress]
    when some square is empty. The board [X,O,X,O,X,O,O,X,O] has no triple
    aligned and is mapped to [Draw]. A draw reached by moves is the game in
    which the squares 0, 1, 2, 4, 3, 5, 7, 6, 8 are clicked in this order:
    it fills the board as [X,O,X,X,O,O,O,X,X] and ends with the outcome
    [Draw]. *)
Theorem computeOutcome_draw_or_in_progress :
  (∀ sq : JSArray.t,
      is_board sq = true →
      (∀ l m, l ∈ lines → ¬ full_line sq l m) →
      ((∀ k, 0 <= k <= 8 → sq.[k] ≠ Null) → computeOutcome sq = Draw)
      ∧ ((∃ k, 0 <= k <= 8 ∧ sq.[k] = Null) → computeOutcome sq = InProgress))
  ∧ (∀ l m, l ∈ lines → ¬ full_line scenario_board l m)
  ∧ computeOutcome scenario_board = Draw
  ∧ forallb ui_event drawn_game = true
  ∧ squares (run drawn_game init) = drawn_board
  ∧ outcome (run drawn_game init) = Draw.
Proof.
  split; [apply computeOutcome_no_line|].
  split; [by apply no_line_wins_no_full_line|].
  repeat split.
Qed.

(** With square 8 still empty, the same position is in progress. *)
Lemma computeOutcome_draw_or_in_progress_witness :
  computeOutcome
    (JSArray.of_list
       [Mark X; Mark O; Mark X; Mark X; Mark O; Mark O; Mark O; Mark X; Null])
  = InProgress.
Proof.
  apply (proj1 computeOutcome_draw_or_in_progress
           (JSArray.of_list
              [Mark X; Mark O; Mark X; Mark X; Mark O; Mark O; Mark O; Mark X;
               Null])).
  - reflexivity.
  - apply no_line_wins_no_full_line. reflexivity.
  - exists 8. split; [lia|reflexivity].
Defined.

(** ** The stored outcome follows the board *)

Lemma synced_outcome_effect st : synced (outcome_effect st).
Proof.
  unfold synced. by rewrite stored_outcome_effect, squares_outcome_effect.
Qed.

Lemma synced_step e st : synced st → synced (step e st).
Proof.
  intros Hst. destruct e as [i| |]; simpl step.
  - unfold applyMove.
    destruct (handleSquareClick_cases st i) as [[-> _]|(-> & _)]; [done|].
    apply synced_outcome_effect.
  - apply synced_outcome_effect.
  - done.
Qed.

Lemma synced_run evs st : synced st → synced (run evs st).
Proof.
  revert st. induction evs as [|e evs IH]; intros st Hst; [done|].
  simpl. by apply IH, synced_step.
Qed.

Lemma synced_init : synced init.
Proof. apply synced_outcome_effect. Qed.

Lemma synced_outcome st : synced st → outcome st = computeOutcome (squares st).
Proof.
  unfold synced, outcome, computeOutcome. intros <-. done.
Qed.

(** The two shapes of a stored outcome that follows the board. *)
Lemma synced_winnerInfo st :
  synced st →
  (winnerInfo st = no_winner
   ∧ ∀ l, l ∈ lines → line_wins (squares st) l = false)
  ∨ (∃ m l, winnerInfo st = {| winner := Mark m; line := Some l |}
            ∧ isDraw st = false
            ∧ l ∈ lines ∧ full_line (squares st) l m).
Proof.
  unfold synced, outcome_of_board. intros Hst.
  pose proof (calculateWinner_spec (squares st)) as Hspec.
  destruct (calculateWinner (squares st)) as [w [l|]] eqn:Hcw; simpl in *.
  - destruct Hspec as (k & Hk & Hwin & Hw & _).
    apply line_wins_full in Hwin as [m Hm].
    rewrite Hw, (full_line_first _ _ _ Hm) in Hst. simpl in Hst.
    right. exists m, l. injection Hst as -> ->.
    repeat split; try done. by eapply list_elem_of_lookup_2.
  - destruct Hspec as [-> Hnone]. simpl in Hst. left.
    split; [|done]. destruct (JSArray.every truthy (squares st)); congruence.
Qed.


(** ** Who holds a full line *)

Lemma lines_in_range l :
  l ∈ lines →
  let '(a, b, c) := l in
  0 <= a <= 8 ∧ 0 <= b <= 8 ∧ 0 <= c <= 8 ∧ a ≠ b ∧ b ≠ c ∧ a ≠ c.
Proof.
  unfold lines. intros H.
  repeat (apply elem_of_cons in H as [->|H]; [repeat split; lia|]).
  by apply elem_of_nil in H.
Qed.

Lemma fresh_board_null k :
  0 <= k <= 8 → (JSArray.fill (JSArray.Array 9) Null).[k] = Null.
Proof.
  intros Hk.
  assert (k = 0 ∨ k = 1 ∨ k = 2 ∨ k = 3 ∨ k = 4 ∨ k = 5 ∨ k = 6 ∨ k = 7 ∨ k = 8)
    as Hcases by lia.
  destruct Hcases as [->|[->|[->|[->|[->|[->|[->|[->| ->]]]]]]]]; reflexivity.
Qed.

Lemma fresh_board_no_full_line l m :
  l ∈ lines → ¬ full_line (JSArray.fill (JSArray.Array 9) Null) l m.
Proof.
  intros Hin Hfull. apply lines_in_range in Hin.
  destruct l as [[a b] c]. destruct Hfull as [Ha _].
  rewrite fresh_board_null in Ha by lia. done.
Qed.

Lemma squares_reset st : squares (reset st) = JSArray.fill (JSArray.Array 9) Null.
Proof. unfold reset. by rewrite squares_outcome_effect. Qed.

Lemma squares_init : squares init = JSArray.fill (JSArray.Array 9) Null.
Proof. unfold init. by rewrite squares_outcome_effect. Qed.

(** On a board that follows its outcome and has no winner, no line is full. *)
Lemma no_winner_no_full_line st l m :
  synced st → truthy (winner (winnerInfo st)) = false →
  l ∈ lines → ¬ full_line (squares st) l m.
Proof.
  intros Hst Hw Hin Hfull.
  destruct (synced_winnerInfo st Hst) as [[_ Hnone]|(m' & l' & Hwi & _)].
  - apply Hnone in Hin. by rewrite (full_line_wins _ _ _ Hfull) in Hin.
  - by rewrite Hwi in Hw.
Qed.

(** A line that is full after an accepted click on the board goes through
    the clicked square, or was full before. *)
Lemma full_line_after_click sq i v l m :
  JSArray.length sq = 9 → l ∈ lines →
  full_line (JSArray.set (JSArray.slice sq) i v) l m →
  (includes l i = true ∧ v = Mark m) ∨ full_line sq l m.
Proof.
  intros Hlen Hin Hfull. apply lines_in_range in Hin.
  destruct l as [[a b] c]. destruct Hin as (Ha & Hb & Hc & _).
  unfold includes.
  destruct (decide (i ∈ [a; b; c])) as [Hi|Hi].
  - left. split; [by apply bool_decide_eq_true|].
    destruct Hfull as (Fa & Fb & Fc).
    repeat (apply elem_of_cons in Hi as [->|Hi];
            [by rewrite get_set_eq in *|]).
    by apply elem_of_nil in Hi.
  - right. apply not_elem_of_cons in Hi as [Hia Hi].
    apply not_elem_of_cons in Hi as [Hib Hi].
    apply not_elem_of_cons in Hi as [Hic _].
    unfold full_line in *.
    rewrite !get_set_ne in Hfull by done.
    rewrite !get_slice in Hfull by lia. done.
Qed.

Lemma last_mover_applyMove st i :
  0 <= i <= 8 → consistent st → full_lines_of_last_mover st →
  full_lines_of_last_mover (applyMove i st).
Proof.
  intros Hi (Hb & Hout & _) Hlast.
  destruct (handleSquareClick_cases st i) as [[_ H]|(_ & Hw & Hs)].
  - by rewrite applyMove_ignored.
  - rewrite applyMove_accepted by done.
    pose proof Hb as [Hlen _]%is_board_spec.
    intros l m Hin Hfull. unfold last_mover.
    autorewrite with app_state in *.
    change (xIsNext (clicked st i)) with (negb (xIsNext st)).
    apply full_line_after_click in Hfull as [[_ Hv]|Hold]; try done.
    + injection Hv as <-. by destruct (xIsNext st).
    + by destruct (no_winner_no_full_line st l m).
Qed.

Lemma last_mover_step e st :
  ui_event e = true → consistent st → full_lines_of_last_mover st →
  full_lines_of_last_mover (step e st).
Proof.
  destruct e as [i| |]; simpl step.
  - intros Hi%ui_click_range. by apply last_mover_applyMove.
  - intros _ _ _ l m Hin Hfull. rewrite squares_reset in Hfull.
    by destruct (fresh_board_no_full_line l m).
  - done.
Qed.

Lemma last_mover_run evs st :
  forallb ui_event evs = true → consistent st → full_lines_of_last_mover st →
  full_lines_of_last_mover (run evs st).
Proof.
  revert st. induction evs as [|e evs IH]; intros st Hui Hst Hlast; [done|].
  simpl in Hui. apply andb_true_iff in Hui as [He Hui].
  simpl. apply IH; [done|by apply consistent_step|by apply last_mover_step].
Qed.

Lemma reachable_last_mover evs :
  forallb ui_event evs = true → full_lines_of_last_mover (run evs init).
Proof.
  intros Hui. apply last_mover_run; [done|apply consistent_init|].
  intros l m Hin Hfull. rewrite squares_init in Hfull.
  by destruct (fresh_board_no_full_line l m).
Qed.

(** ** How many marks a board holds *)

Lemma holds_range m sq k : 0 <= holds m sq k <= 1.
Proof. unfold holds. case_bool_decide; lia. Qed.

Lemma holds_exclusive sq k : holds X sq k + holds O sq k <= 1.
Proof. unfold holds. repeat case_bool_decide; try lia. congruence. Qed.

Lemma holds_Mark m sq k : sq.[k] = Mark m → holds m sq k = 1.
Proof. unfold holds. intros ->. by rewrite bool_decide_eq_true_2. Qed.

Lemma holds_taken sq k :
  truthy sq.[k] = true → holds X sq k + holds O sq k = 1.
Proof.
  intros [[] Hm]%truthy_Mark; unfold holds; rewrite Hm;
    repeat case_bool_decide; done.
Qed.

Ltac expand_count :=
  unfold count_mark;
  change (seqZ 0 9) with [0; 1; 2; 3; 4; 5; 6; 7; 8];
  cbn [fmap list_fmap foldr].

Ltac all_squares tac :=
  tac 0; tac 1; tac 2; tac 3; tac 4; tac 5; tac 6; tac 7; tac 8.

Lemma count_marks_le_9 sq : count_mark X sq + count_mark O sq <= 9.
Proof.
  expand_count.
  all_squares ltac:(fun k => pose proof (holds_exclusive sq k)). lia.
Qed.

Lemma count_marks_full sq :
  is_board sq = true → (∀ k, 0 <= k <= 8 → sq.[k] ≠ Null) →
  count_mark X sq + count_mark O sq = 9.
Proof.
  intros Hb Hfull. expand_count.
  all_squares ltac:(fun k =>
    let H := fresh in
    assert (holds X sq k + holds O sq k = 1) as H
      by (apply holds_taken, board_square_truthy;
          [done|lia|apply Hfull; lia])).
  lia.
Qed.

Lemma count_mark_full_line sq l m :
  l ∈ lines → full_line sq l m → 3 <= count_mark m sq.
Proof.
  unfold lines. intros Hin Hfull. expand_count.
  all_squares ltac:(fun k => pose proof (holds_range m sq k)).
  repeat (apply elem_of_cons in Hin as [->|Hin];
          [destruct Hfull as (Ha & Hb & Hc);
           apply holds_Mark in Ha, Hb, Hc; lia|]).
  by apply elem_of_nil in Hin.
Qed.

(** X2. In every state reached through the user interface, X holds as many
    squares as O when it is X's turn and one more when it is O's turn; so X
    never holds more than five squares and O never more than four. *)
Theorem marks_balance (evs : list event) :
  forallb ui_event evs = true →
  count_mark X (squares (run evs init)) - count_mark O (squares (run evs init))
  = (if xIsNext (run evs init) then 0 else 1)
  ∧ 0 <= count_mark O (squares (run evs init)) <= 4
  ∧ 0 <= count_mark X (squares (run evs init)) <= 5.
Proof.
  intros Hui. destruct (reachable_consistent evs Hui) as (_ & _ & Hcount).
  pose proof (count_marks_le_9 (squares (run evs init))) as Hle.
  assert (0 <= count_mark O (squares (run evs init))) as HO.
  { expand_count.
    all_squares ltac:(fun k =>
      pose proof (holds_range O (squares (run evs init)) k)).
    lia. }
  split; [done|]. destruct (xIsNext (run evs init)); lia.
Qed.

(** After X on 0, O on 4 and X on 1: two X, one O, O to move. *)
Lemma marks_balance_witness :
  count_mark X (squares (run [Click 0; Click 4; Click 1] init))
  - count_mark O (squares (run [Click 0; Click 4; Click 1] init))
  = 1.
Proof.
  apply (marks_balance [Click 0; Click 4; Click 1]). reflexivity.
Defined.

(** ** What the three outcomes say about the board *)

Lemma decode_outcome_Draw w d :
  decode_outcome w d = Draw → truthy (winner w) = false ∧ d = true.
Proof. unfold decode_outcome. by destruct (winner w), d. Qed.

Lemma synced_isDraw st :
  synced st → truthy (winner (winnerInfo st)) = false →
  isDraw st = JSArray.every truthy (squares st).
Proof.
  unfold synced, outcome_of_board. intros Hst Hw.
  destruct (truthy (winner (calculateWinner (squares st)))) eqn:Hcw.
  - injection Hst as Hwi _. rewrite Hwi, Hcw in Hw. done.
  - destruct (JSArray.every truthy (squares st)); congruence.
Qed.

Lemma board_empty_square sq :
  is_board sq = true → JSArray.every truthy sq = false →
  ∃ k, 0 <= k <= 8 ∧ sq.[k] = Null.
Proof.
  intros Hb Hev.
  destruct (decide (Exists (fun k => sq.[k] = Null) (seqZ 0 9))) as [Hex|Hno].
  - apply Exists_exists in Hex as (k & Hk%elem_of_seqZ & Hnull).
    exists k. split; [lia|done].
  - assert (JSArray.every truthy sq = true) as Hall; [|congruence].
    apply every_truthy_board; [done|]. intros k Hk Hnull. apply Hno.
    apply Exists_exists. exists k. split; [|done]. apply elem_of_seqZ. lia.
Qed.

(** X3. In a state reached through the user interface, a winner is the
    player who moved last. The stored line is one of the eight triples and
    is full of the winner's mark, no line is full of the other mark, the
    winner holds at least three squares and the board at least five marks. *)
Theorem winner_moved_last (evs : list event) (m : mark) (ol : option line_t) :
  forallb ui_event evs = true →
  outcome (run evs init) = Won m ol →
  m = last_mover (run evs init)
  ∧ (∃ l, ol = Some l ∧ l ∈ lines ∧ full_line (squares (run evs init)) l m)
  ∧ (∀ l' m', l' ∈ lines → full_line (squares (run evs init)) l' m' → m' = m)
  ∧ 3 <= count_mark m (squares (run evs init))
  ∧ 5 <= count_mark X (squares (run evs init))
          + count_mark O (squares (run evs init)).
Proof.
  intros Hui Hwon.
  pose proof (reachable_consistent evs Hui) as (Hb & Hst & Hcount).
  pose proof (reachable_last_mover evs Hui) as Hlast.
  set (st := run evs init) in *.
  destruct (synced_winnerInfo st Hst) as [[Hwi _]|(m0 & l & Hwi & _ & Hin & Hfull)];
    unfold outcome, decode_outcome in Hwon; rewrite Hwi in Hwon; simpl in Hwon.
  { by destruct (isDraw st). }
  injection Hwon as <- <-.
  assert (m0 = last_mover st) as Hm by by apply (Hlast l).
  pose proof (count_mark_full_line _ _ _ Hin Hfull) as H3.
  split; [done|]. split; [by exists l|]. split.
  { intros l' m' Hin' Hfull'. rewrite Hm. by apply (Hlast l'). }
  split; [done|].
  unfold last_mover in Hm. destruct (xIsNext st); subst m0; lia.
Qed.

(** X wins the game of the win scenario, right after its own move. *)
Lemma winner_moved_last_witness :
  X = last_mover (run won_game init)
  ∧ 3 <= count_mark X (squares (run won_game init)).
Proof.
  destruct (winner_moved_last won_game X (Some (0, 1, 2)))
    as (Hlast & _ & _ & Hcount & _); [reflexivity|reflexivity|].
  split; [exact Hlast|exact Hcount].
Defined.

(** X4. In a state reached through the user interface with the game in
    progress, no line is full and some square of the nine is empty: a click
    on it is accepted, so a game in progress can always go on. *)
Theorem in_progress_has_move (evs : list event) :
  forallb ui_event evs = true →
  outcome (run evs init) = InProgress →
  (∀ l m, l ∈ lines → ¬ full_line (squares (run evs init)) l m)
  ∧ ∃ k, 0 <= k <= 8
         ∧ (squares (run evs init)).[k] = Null
         ∧ (squares (applyMove k (run evs init))).[k]
           = Mark (if xIsNext (run evs init) then X else O).
Proof.
  intros Hui [Hw Hd]%decode_outcome_InProgress.
  pose proof (reachable_consistent evs Hui) as (Hb & Hst & _).
  set (st := run evs init) in *. split.
  - intros l m. by apply no_winner_no_full_line.
  - rewrite (synced_isDraw st Hst Hw) in Hd.
    destruct (board_empty_square _ Hb Hd) as (k & Hk & Hnull).
    exists k. split; [done|]. split; [done|].
    rewrite applyMove_accepted by (done || by rewrite Hnull).
    autorewrite with app_state. by rewrite get_set_eq.
Qed.

Lemma in_progress_has_move_witness :
  ∃ k, 0 <= k <= 8
       ∧ (squares (run [Click 0; Click 4] init)).[k] = Null
       ∧ (squares (applyMove k (run [Click 0; Click 4] init))).[k] = Mark X.
Proof.
  apply (in_progress_has_move [Click 0; Click 4]); reflexivity.
Defined.

(** X5. In a state reached through the user interface, a draw means that
    the nine squares are taken, five by X and four by O, that no line is
    full, and that X made the last move. *)
Theorem draw_five_four (evs : list event) :
  forallb ui_event evs = true →
  outcome (run evs init) = Draw →
  (∀ k, 0 <= k <= 8 → ∃ m, (squares (run evs init)).[k] = Mark m)
  ∧ (∀ l m, l ∈ lines → ¬ full_line (squares (run evs init)) l m)
  ∧ count_mark X (squares (run evs init)) = 5
  ∧ count_mark O (squares (run evs init)) = 4
  ∧ last_mover (run evs init) = X.
Proof.
  intros Hui [Hw Hd]%decode_outcome_Draw.
  pose proof (reachable_consistent evs Hui) as (Hb & Hst & Hcount).
  set (st := run evs init) in *.
  rewrite (synced_isDraw st Hst Hw) in Hd.
  rewrite every_truthy_board in Hd by done.
  assert (∀ k, 0 <= k <= 8 → (squares st).[k] ≠ Null) as Hfull
    by (intros k Hk; apply Hd; lia).
  pose proof (count_marks_full _ Hb Hfull) as H9.
  split.
  { intros k Hk. apply truthy_Mark, board_square_truthy; [done|lia|auto]. }
  split; [intros l m; by apply no_winner_no_full_line|].
  unfold last_mover. destruct (xIsNext st); repeat split; lia.
Qed.

Lemma draw_five_four_witness :
  count_mark X (squares (run drawn_game init)) = 5
  ∧ count_mark O (squares (run drawn_game init)) = 4.
Proof.
  destruct (draw_five_four drawn_game) as (_ & _ & HX & HO & _);
    [reflexivity|reflexivity|].
  split; [exact HX|exact HO].
Defined.

(** ** The rendered board *)

Lemma board_squares_Board {A : Type} sq (f : Z → A) wl :
  board_squares (Board sq f wl) = renderSquare sq f wl <$> seqZ 0 9.
Proof. reflexivity. Qed.

Lemma elem_of_board_squares {A : Type} sq (f : Z → A) wl i b :
  (i, b) ∈ board_squares (Board sq f wl) ↔
  0 <= i <= 8
  ∧ b = Square sq.[i] (f i)
               (match wl with None => None | Some l => Some (includes l i) end).
Proof.
  rewrite board_squares_Board, list_elem_of_fmap. unfold renderSquare. split.
  - intros (k & [= -> ->] & Hk%elem_of_seqZ). split; [lia|done].
  - intros [Hi ->]. exists i. split; [done|]. apply elem_of_seqZ. lia.
Qed.

Lemma Square_className {A : Type} v (c : A) h :
  (className (Square v c h) = "ttt-square highlight" ∧ h = Some true)
  ∨ (className (Square v c h) = "ttt-square" ∧ h ≠ Some true).
Proof. destruct h as [[]|]; simpl; auto. Qed.

Lemma includes_full_line sq l m i :
  includes l i = true → full_line sq l m → sq.[i] = Mark m.
Proof.
  destruct l as [[a b] c]. unfold includes.
  intros Hi%bool_decide_eq_true (Ha & Hb & Hc).
  repeat (apply elem_of_cons in Hi as [->|Hi]; [done|]).
  by apply elem_of_nil in Hi.
Qed.

Lemma includes_three l :
  l ∈ lines → length (filter (fun i => includes l i = true) (seqZ 0 9)) = 3%nat.
Proof.
  unfold lines. intros Hin.
  repeat (apply elem_of_cons in Hin as [->|Hin]; [reflexivity|]).
  by apply elem_of_nil in Hin.
Qed.

Lemma highlighted_count {A : Type} sq (f : Z → A) wl :
  (∀ l, wl = Some l → l ∈ lines) →
  length (filter (fun kb => className kb.2 = "ttt-square highlight")
                 (board_squares (Board sq f wl)))
  = match wl with Some _ => 3%nat | None => 0%nat end.
Proof.
  intros Hwl. destruct wl as [l|]; [|reflexivity].
  specialize (Hwl l eq_refl). unfold lines in Hwl.
  repeat (apply elem_of_cons in Hwl as [->|Hwl]; [reflexivity|]).
  by apply elem_of_nil in Hwl.
Qed.

(** X6. What [App] renders as the board, in a state reached through the user
    interface: nine squares with the keys 0 to 8 in reading order; the square
    with key [i] shows [squares[i]] and a click on it is the click with
    index [i], an index of the board. The highlighted squares are those of
    the stored winning line: three when the game is won, each showing the
    winner's mark, and none otherwise. *)
Theorem App_board_squares (evs : list event) :
  forallb ui_event evs = true →
  (board_squares (board (App (run evs init)))).*1 = seqZ 0 9
  ∧ (∀ i b,
        (i, b) ∈ board_squares (board (App (run evs init))) →
        children b = (squares (run evs init)).[i]
        ∧ onClick b = step (Click i) (run evs init)
        ∧ ui_event (Click i) = true
        ∧ (className b = "ttt-square highlight" ∨ className b = "ttt-square")
        ∧ (className b = "ttt-square highlight" ↔
           ∃ m l, outcome (run evs init) = Won m (Some l)
                  ∧ includes l i = true)
        ∧ (className b = "ttt-square highlight" →
           ∃ m l, outcome (run evs init) = Won m l ∧ children b = Mark m))
  ∧ length (filter (fun kb => className kb.2 = "ttt-square highlight")
                   (board_squares (board (App (run evs init)))))
    = match outcome (run evs init) with
      | Won _ _ => 3%nat
      | InProgress | Draw => 0%nat
      end.
Proof.
  intros Hui. pose proof (reachable_consistent evs Hui) as (_ & Hst & _).
  set (st := run evs init) in *.
  change (board (App st))
    with (Board (squares st) (fun i => applyMove i st) (line (winnerInfo st))).
  split; [reflexivity|].
  destruct (synced_winnerInfo st Hst)
    as [[Hwi _]|(m & l & Hwi & _ & Hin & Hfull)];
    unfold outcome, decode_outcome; rewrite Hwi; cbn [winner line].
  - split.
    + intros i b [Hi ->]%elem_of_board_squares.
      split; [done|]. split; [done|].
      split; [by apply ui_click_range|].
      split; [by right|]. split.
      * split; [done|]. intros (m & l & Hwon & _). by destruct (isDraw st).
      * done.
    + rewrite highlighted_count by done. by destruct (isDraw st).
  - split.
    + intros i b [Hi ->]%elem_of_board_squares.
      split; [done|]. split; [done|].
      split; [by apply ui_click_range|].
      destruct (includes l i) eqn:Hinc; cbn.
      * split; [by left|]. split.
        -- split; [|done]. intros _. by exists m, l.
        -- intros _. exists m, (Some l). split; [done|].
           by apply (includes_full_line _ l).
      * split; [by right|]. split; [|done].
        split; [done|]. intros (m' & l' & [= _ <-] & Hinc'). congruence.
    + rewrite highlighted_count; [done|]. by intros l' [= <-].
Qed.

(** Once X has won with the top row, square 1 is highlighted and shows X. *)
Lemma App_board_squares_witness :
  (board_squares (board (App (run won_game init)))).*1 = seqZ 0 9
  ∧ length (filter (fun kb => className kb.2 = "ttt-square highlight")
                   (board_squares (board (App (run won_game init)))))
    = 3%nat.
Proof.
  destruct (App_board_squares won_game) as (Hkeys & _ & Hcount);
    [reflexivity|].
  split; [exact Hkeys|exact Hcount].
Defined.

(** ** The status line and the labels *)

Lemma renderStatus_cases st :
  (truthy (winner (winnerInfo st)) = true
   ∧ renderStatus st
     = StatusLine "ttt-status winner" "Winner: " (Some (winner (winnerInfo st))))
  ∨ (truthy (winner (winnerInfo st)) = false ∧ isDraw st = true
     ∧ renderStatus st = StatusLine "ttt-status draw" "It's a Draw!" None)
  ∨ (truthy (winner (winnerInfo st)) = false ∧ isDraw st = false
     ∧ renderStatus st
       = StatusLine "ttt-status turn" "Turn: "
                    (Some (Mark (if xIsNext st then X else O)))).
Proof.
  unfold renderStatus.
  destruct (truthy (winner (winnerInfo st))); [by left|].
  destruct (isDraw st); auto.
Qed.



(** X8. The label of a rendered square and what a click on it does, in a
    state reached through the user interface: the label is 'empty square'
    exactly when the square is empty; a click on a square with another label
    changes nothing; and while the game is in progress a click on a square
    labelled 'empty square' is accepted: it writes the mark of the player to
    move into that square and passes the turn. *)
Theorem square_label_and_click (evs : list event) (i : Z) (b : button state) :
  forallb ui_event evs = true →
  (i, b) ∈ board_squares (board (App (run evs init))) →
  (ariaLabel b = "empty square" ↔ (squares (run evs init)).[i] = Null)
  ∧ (∀ m, ariaLabel b = "square with " +:+ mark_string m ↔
          (squares (run evs init)).[i] = Mark m)
  ∧ (ariaLabel b ≠ "empty square" → onClick b = run evs init)
  ∧ (outcome (run evs init) ≠ InProgress → onClick b = run evs init)
  ∧ (outcome (run evs init) = InProgress → ariaLabel b = "empty square" →
     (squares (onClick b)).[i]
     = Mark (if xIsNext (run evs init) then X else O)
     ∧ xIsNext (onClick b) = negb (xIsNext (run evs init))).
Proof.
  intros Hui Hin.
  pose proof (reachable_consistent evs Hui) as Hcons.
  pose proof Hcons as (Hb & Hst & _).
  set (st := run evs init) in *.
  change (board (App st))
    with (Board (squares st) (fun i => applyMove i st) (line (winnerInfo st)))
    in Hin.
  apply elem_of_board_squares in Hin as [Hi ->].
  cbn [ariaLabel onClick Square].
  pose proof Hb as [_ Hdef]%is_board_spec. specialize (Hdef i ltac:(lia)).
  split; [|split; [|split; [|split]]].
  - destruct (squares st).[i] as [| |[]]; done.
  - intros m. destruct (squares st).[i] as [| |[]], m; done.
  - intros Hlabel. apply applyMove_ignored. right.
    destruct (squares st).[i] as [| |[]]; done.
  - intros Hterm. apply applyMove_ignored, consistent_guard; auto.
  - intros [Hw _]%decode_outcome_InProgress Hlabel.
    assert (truthy (squares st).[i] = false) as Hs
      by (destruct (squares st).[i] as [| |[]]; done).
    rewrite applyMove_accepted by done.
    autorewrite with app_state. by rewrite get_set_eq.
Qed.

(** After X's click on square 0, that square is labelled 'square with X' and
    a click on it changes nothing. *)
Lemma square_label_and_click_witness :
  ariaLabel (Square (squares (run [Click 0] init)).[0]
                    (applyMove 0 (run [Click 0] init)) None)
  = "square with X"
  ∧ onClick (Square (squares (run [Click 0] init)).[0]
                    (applyMove 0 (run [Click 0] init)) None)
    = run [Click 0] init.
Proof.
  destruct (square_label_and_click [Click 0] 0
              (Square (squares (run [Click 0] init)).[0]
                      (applyMove 0 (run [Click 0] init)) None))
    as (_ & Hlabel & Hclick & _).
  - reflexivity.
  - apply elem_of_board_squares. split; [lia|reflexivity].
  - split.
    + apply (Hlabel X). reflexivity.
    + apply Hclick. vm_compute. discriminate.
Defined.

(** ** Clicks outside the board leave the board alone *)

Lemma length_set_ge (a : JSArray.t) i v :
  JSArray.length a <= JSArray.length (JSArray.set a i v).
Proof.
  unfold JSArray.set; simpl.
  destruct (JSArray.is_index i); simpl; [|lia].
  destruct (Z.leb_spec (JSArray.length a) i); lia.
Qed.

Lemma long_step e st :
  9 <= JSArray.length (squares st) → 9 <= JSArray.length (squares (step e st)).
Proof.
  intros Hlen. destruct e as [i| |]; simpl step; [|by rewrite squares_reset|done].
  unfold applyMove.
  destruct (handleSquareClick_cases st i) as [[-> _]|(-> & _)]; [done|].
  autorewrite with app_state.
  pose proof (length_set_ge (JSArray.slice (squares st)) i
                (Mark (if xIsNext st then X else O))) as Hge.
  rewrite length_slice in Hge. lia.
Qed.

Lemma long_run evs st :
  9 <= JSArray.length (squares st) → 9 <= JSArray.length (squares (run evs st)).
Proof.
  revert st. induction evs as [|e evs IH]; intros st Hlen; [done|].
  simpl. by apply IH, long_step.
Qed.

Lemma line_wins_agree a b l :
  l ∈ lines → (∀ k, 0 <= k <= 8 → a.[k] = b.[k]) →
  line_wins a l = line_wins b l ∧ a.[l.1.1] = b.[l.1.1].
Proof.
  intros Hin%lines_in_range Hagree. destruct l as [[x y] z].
  destruct Hin as (Hx & Hy & Hz & _). unfold line_wins. simpl.
  by rewrite !Hagree by done.
Qed.

Lemma scan_lines_agree a b ls :
  (∀ l, l ∈ ls → l ∈ lines) → (∀ k, 0 <= k <= 8 → a.[k] = b.[k]) →
  scan_lines a ls = scan_lines b ls.
Proof.
  intros Hsub Hagree. induction ls as [|l rest IH]; [done|].
  destruct (line_wins_agree a b l) as [Hw Hfirst];
    [apply Hsub, list_elem_of_here|done|].
  cbn [scan_lines]. destruct l as [[x y] z]. rewrite Hw. simpl in Hfirst.
  rewrite Hfirst, IH; [done|].
  intros l Hl. by apply Hsub, list_elem_of_further.
Qed.

(** [calculateWinner] reads the squares 0 to 8 and nothing else. *)
Lemma calculateWinner_agree a b :
  (∀ k, 0 <= k <= 8 → a.[k] = b.[k]) → calculateWinner a = calculateWinner b.
Proof. intros Hagree. by apply scan_lines_agree. Qed.

Lemma synced_winnerInfo_eq st :
  synced st →
  winnerInfo st
  = if truthy (winner (calculateWinner (squares st)))
    then calculateWinner (squares st) else no_winner.
Proof.
  unfold synced, outcome_of_board. intros Hst.
  destruct (truthy (winner (calculateWinner _))); [congruence|].
  destruct (JSArray.every _ _); congruence.
Qed.

(** X9. After any sequence of events, a click with an index outside [0,8]
    leaves the nine squares of the board as they are, and with them the
    result of [calculateWinner] and the stored winner: such a click never
    makes or unmakes a win. *)
Theorem outside_click_keeps_board (evs : list event) (i : Z) :
  ¬ (0 <= i <= 8) →
  (∀ k, 0 <= k <= 8 →
        (squares (applyMove i (run evs init))).[k] = (squares (run evs init)).[k])
  ∧ calculateWinner (squares (applyMove i (run evs init)))
    = calculateWinner (squares (run evs init))
  ∧ winnerInfo (applyMove i (run evs init)) = winnerInfo (run evs init).
Proof.
  intros Hi.
  pose proof (synced_run evs init synced_init) as Hst.
  assert (9 <= JSArray.length (squares (run evs init))) as Hlen
    by (apply long_run; rewrite squares_init; done).
  pose proof (synced_step (Click i) _ Hst) as Hst'. simpl step in Hst'.
  set (st := run evs init) in *.
  assert (∀ k, 0 <= k <= 8 → (squares (applyMove i st)).[k] = (squares st).[k])
    as Hkeep.
  { intros k Hk. unfold applyMove.
    destruct (handleSquareClick_cases st i) as [[-> _]|(-> & _)]; [done|].
    autorewrite with app_state.
    rewrite get_set_ne by lia. rewrite get_slice by lia. done. }
  split; [done|].
  pose proof (calculateWinner_agree _ _ Hkeep) as Hcw.
  split; [done|].
  by rewrite (synced_winnerInfo_eq _ Hst'), (synced_winnerInfo_eq _ Hst), Hcw.
Qed.

Lemma outside_click_keeps_board_witness :
  winnerInfo (applyMove 9 (run won_game init)) = winnerInfo (run won_game init)
  ∧ winnerInfo (applyMove (-1) (run [Click 0; Click 1] init))
    = winnerInfo (run [Click 0; Click 1] init).
Proof.
  split.
  - apply (outside_click_keeps_board won_game 9). lia.
  - apply (outside_click_keeps_board [Click 0; Click 1] (-1)). lia.
Defined.

(** ** The theme button *)

Lemma theme_reset st : theme (reset st) = theme st.
Proof. unfold reset. by rewrite theme_outcome_effect. Qed.

Lemma toggleTheme_twice st : toggleTheme (toggleTheme st) = st.
Proof. by destruct st as [sq x w d []]. Qed.

Lemma theme_toggleTheme st :
  theme (toggleTheme st) = if bool_decide (theme st = light) then dark else light.
Proof. reflexivity. Qed.

Lemma theme_run evs st :
  theme (run evs st)
  = if Nat.even (theme_clicks evs) then theme st else theme (toggleTheme st).
Proof.
  revert st. induction evs as [|e evs IH]; intros st; [done|].
  cbn [run foldl]. fold (run evs (step e st)). rewrite IH.
  unfold theme_clicks. rewrite filter_cons.
  destruct e as [i| |]; simpl step.
  - rewrite decide_False by done.
    by rewrite !theme_toggleTheme, theme_applyMove.
  - rewrite decide_False by done.
    by rewrite !theme_toggleTheme, theme_reset.
  - rewrite decide_True by done. cbn [length].
    rewrite Nat.even_succ, <- Nat.negb_even, toggleTheme_twice.
    by destruct (Nat.even _).
Qed.

(** X10. Two clicks on the theme button give the state back. The label of
    the button names the theme that a click on it sets on the document. After
    any sequence of events the theme is the initial one when the theme button
    has been clicked an even number of times, and the other one otherwise;
    clicks on the squares and on the reset button play no part. *)
Theorem theme_button (st : state) :
  toggleTheme (toggleTheme st) = st
  ∧ themeToggleLabel (App st)
    = "Switch to " +:+ dataTheme (App (toggleTheme st)) +:+ " mode"
  ∧ dataTheme (App (toggleTheme st)) ≠ dataTheme (App st)
  ∧ (∀ evs, dataTheme (App (run evs st))
            = if Nat.even (theme_clicks evs)
              then dataTheme (App st) else dataTheme (App (toggleTheme st))).
Proof.
  split; [apply toggleTheme_twice|].
  split; [by destruct st as [sq x w d []]|].
  split; [by destruct st as [sq x w d []]|].
  intros evs. cbn [dataTheme App]. rewrite theme_run.
  by destruct (Nat.even _).
Qed.

(** ** A game has at most nine moves *)

Lemma count_marks_click sq i m :
  JSArray.length sq = 9 → 0 <= i < 9 → truthy sq.[i] = false →
  count_mark X (JSArray.set (JSArray.slice sq) i (Mark m))
  + count_mark O (JSArray.set (JSArray.slice sq) i (Mark m))
  = count_mark X sq + count_mark O sq + 1.
Proof.
  intros Hlen Hi Hs. rewrite !count_mark_click by done.
  destruct m; repeat case_bool_decide; try done; lia.
Qed.

Lemma marks_written_count clicks st :
  forallb ui_event (Click <$> clicks) = true → consistent st →
  count_mark X (squares (run (Click <$> clicks) st))
  + count_mark O (squares (run (Click <$> clicks) st))
  = count_mark X (squares st) + count_mark O (squares st)
    + Z.of_nat (length (marks_written clicks st)).
Proof.
  revert st. induction clicks as [|i clicks IH]; intros st Hui Hst.
  { simpl. lia. }
  rewrite fmap_cons in *. cbn [forallb] in Hui.
  apply andb_true_iff in Hui as [Hi%ui_click_range Hui].
  cbn [run foldl step marks_written]. fold (run (Click <$> clicks) (applyMove i st)).
  rewrite IH by (done || by apply consistent_applyMove).
  destruct (handleSquareClick_cases st i) as [[Hnone H]|(Hsome & Hw & Hs)].
  - rewrite Hnone, applyMove_ignored by done. done.
  - rewrite Hsome. rewrite (applyMove_accepted st i) at 1 2 by done.
    autorewrite with app_state.
    destruct Hst as ([Hlen _]%is_board_spec & _).
    rewrite count_marks_click by (done || lia).
    cbn [length]. lia.
Qed.

(** X11. From the initial state, the number of marks on the board is the
    number of accepted clicks, whatever squares of the nine are clicked and
    in whatever order; so at most nine clicks of a game are accepted. *)
Theorem at_most_nine_moves (clicks : list Z) :
  forallb ui_event (Click <$> clicks) = true →
  count_mark X (squares (run (Click <$> clicks) init))
  + count_mark O (squares (run (Click <$> clicks) init))
  = Z.of_nat (length (marks_written clicks init))
  ∧ (length (marks_written clicks init) <= 9)%nat.
Proof.
  intros Hui.
  pose proof (marks_written_count clicks init Hui consistent_init) as Hcount.
  change (count_mark X (squares init) + count_mark O (squares init)) with 0
    in Hcount.
  pose proof (count_marks_le_9 (squares (run (Click <$> clicks) init))).
  split; lia.
Qed.

(** Ten clicks, one of them on a taken square: nine marks are written. *)
Lemma at_most_nine_moves_witness :
  (length (marks_written [0; 0; 1; 2; 4; 3; 5; 7; 6; 8]%Z init) <= 9)%nat.
Proof.
  apply (at_most_nine_moves [0; 0; 1; 2; 4; 3; 5; 7; 6; 8]). reflexivity.
Defined.

(** ** A finished game stays as it is *)

Lemma game_over_step e st :
  ui_event e = true → e ≠ Reset → consistent st → outcome st ≠ InProgress →
  game (step e st) = game st.
Proof.
  intros He Hne Hst Hover. destruct e as [i| |]; simpl step; [|done|done].
  apply ui_click_range in He.
  rewrite applyMove_ignored; [done|]. apply consistent_guard; auto.
Qed.

Lemma outcome_game st1 st2 : game st1 = game st2 → outcome st1 = outcome st2.
Proof. unfold game, outcome. by intros [= _ _ -> ->]. Qed.

Lemma game_over_run evs st :
  forallb ui_event evs = true → Reset ∉ evs →
  consistent st → outcome st ≠ InProgress →
  game (run evs st) = game st.
Proof.
  revert st. induction evs as [|e evs IH]; intros st Hui Hnr Hst Hover; [done|].
  cbn [forallb] in Hui. apply andb_true_iff in Hui as [He Hui].
  apply not_elem_of_cons in Hnr as [Hne Hnr].
  assert (game (step e st) = game st) as Hstep by by apply game_over_step.
  cbn [run foldl]. fold (run evs (step e st)).
  rewrite IH; try done.
  - by apply consistent_step.
  - by rewrite (outcome_game _ _ Hstep).
Qed.

(** X12. Once a game reached through the user interface is won or drawn, no
    sequence of clicks on the squares and on the theme button changes the
    board, the turn or the outcome: only the reset button starts a new
    game. *)
Theorem game_over_frozen (evs evs' : list event) :
  forallb ui_event evs = true → forallb ui_event evs' = true →
  Reset ∉ evs' →
  outcome (run evs init) ≠ InProgress →
  game (run evs' (run evs init)) = game (run evs init)
  ∧ outcome (run evs' (run evs init)) = outcome (run evs init).
Proof.
  intros Hui Hui' Hnr Hover.
  assert (game (run evs' (run evs init)) = game (run evs init)) as Hgame
    by (apply game_over_run; try done; by apply reachable_consistent).
  split; [done|]. by apply outcome_game.
Qed.

(** After the drawn game, clicks and a change of theme leave the game. *)
Lemma game_over_frozen_witness :
  game (run [Click 4; ToggleTheme; Click 0] (run drawn_game init))
  = game (run drawn_game init).
Proof.
  apply (game_over_frozen drawn_game [Click 4; ToggleTheme; Click 0]).
  - reflexivity.
  - reflexivity.
  - apply (bool_decide_unpack _). vm_compute. exact I.
  - vm_compute. discriminate.
Defined.

(** ** The board keeps its squares *)

(** What holds of the array after any events, clicks with any index among
    them: it has at least nine elements and none of the first nine is
    missing. *)
Lemma prefix_step e st :
  9 <= JSArray.length (squares st) →
  (∀ k, 0 <= k <= 8 → (squares st).[k] ≠ Undefined) →
  ∀ k, 0 <= k <= 8 → (squares (step e st)).[k] ≠ Undefined.
Proof.
  intros Hlen Hdef k Hk. destruct e as [i| |]; simpl step.
  - unfold applyMove.
    destruct (handleSquareClick_cases st i) as [[-> _]|(-> & _)]; [by apply Hdef|].
    autorewrite with app_state.
    destruct (decide (i = k)) as [->|Hne]; [by rewrite get_set_eq|].
    rewrite get_set_ne by done. rewrite get_slice by lia. by apply Hdef.
  - rewrite squares_reset, fresh_board_null by done. done.
  - by apply Hdef.
Qed.

Lemma prefix_run evs st :
  9 <= JSArray.length (squares st) →
  (∀ k, 0 <= k <= 8 → (squares st).[k] ≠ Undefined) →
  ∀ k, 0 <= k <= 8 → (squares (run evs st)).[k] ≠ Undefined.
Proof.
  revert st. induction evs as [|e evs IH]; intros st Hlen Hdef; [done|].
  cbn [run foldl]. fold (run evs (step e st)).
  apply IH; [by apply long_step|by apply prefix_step].
Qed.

Lemma prefix_init k : 0 <= k <= 8 → (squares init).[k] ≠ Undefined.
Proof. intros Hk. rewrite squares_init, fresh_board_null by done. done. Qed.

(** No event but the reset touches a square of the nine that holds a
    mark. *)
Lemma step_keeps_marks e st k :
  9 <= JSArray.length (squares st) →
  e ≠ Reset → 0 <= k <= 8 → truthy (squares st).[k] = true →
  (squares (step e st)).[k] = (squares st).[k].
Proof.
  intros Hlen Hne Hk Htaken. destruct e as [i| |]; simpl step; [|done|done].
  unfold applyMove.
  destruct (handleSquareClick_cases st i) as [[-> _]|(-> & _ & Hs)]; [done|].
  autorewrite with app_state.
  assert (i ≠ k) as Hik by (intros ->; congruence).
  rewrite get_set_ne by done. rewrite get_slice by lia. done.
Qed.

(** C7 as stated fails on the length: a click with index 9 on the fresh
    board gives an array of ten elements, and one with index 20 after a
    reset an array of twenty-one. *)
Lemma board_grows_after_outside_click :
  JSArray.length (squares (run [Click 9] init)) = 10
  ∧ JSArray.length (squares (run [Click 9; Reset; ToggleTheme; Click 20] init))
    = 21.
Proof. split; reflexivity. Qed.

(** C7, amended. In every state reached from the initial one by clicks on
    the squares 0 to 8, on the reset button and on the theme button, the
    board has exactly nine squares, each [null] or a mark. After any sequence
    of events, clicks with any index among them, the array has at least nine
    elements, and no event but the reset, whatever its index, changes one of
    the squares 0 to 8 that holds a mark: the square keeps its value, so it
    does not become empty again. *)
Theorem board_nine_squares_marks_kept :
  (∀ evs : list event,
      forallb ui_event evs = true →
      JSArray.length (squares (run evs init)) = 9
      ∧ is_board (squares (run evs init)) = true)
  ∧ (∀ evs : list event,
        9 <= JSArray.length (squares (run evs init))
        ∧ ∀ e k,
            e ≠ Reset → 0 <= k <= 8 → (squares (run evs init)).[k] ≠ Null →
            (squares (step e (run evs init))).[k] = (squares (run evs init)).[k]
            ∧ (squares (step e (run evs init))).[k] ≠ Null).
Proof.
  split.
  - intros evs Hui. pose proof (reachable_consistent evs Hui) as (Hb & _).
    pose proof Hb as [Hlen _]%is_board_spec. done.
  - intros evs.
    assert (9 <= JSArray.length (squares (run evs init))) as Hlen
      by (apply long_run; rewrite squares_init; done).
    split; [done|]. intros e k Hne Hk Htaken.
    assert ((squares (step e (run evs init))).[k] = (squares (run evs init)).[k])
      as Heq.
    { apply step_keeps_marks; try done.
      pose proof (prefix_run evs init) as Hdef.
      specialize (Hdef ltac:(rewrite squares_init; done) prefix_init k Hk).
      by destruct (squares (run evs init)).[k]. }
    split; [done|]. by rewrite Heq.
Qed.

(** After a game, a reset and two more moves, the board has nine squares;
    and O's mark on square 4 stays where it is when index 9 is clicked. *)
Lemma board_nine_squares_marks_kept_witness :
  JSArray.length
    (squares (run (won_game ++ [ToggleTheme; Reset; Click 8; Click 0]) init))
  = 9
  ∧ (squares (step (Click 9) (run [Click 0; Click 4] init))).[4]
    = (squares (run [Click 0; Click 4] init)).[4].
Proof.
  split.
  - apply (proj1 board_nine_squares_marks_kept
             (won_game ++ [ToggleTheme; Reset; Click 8; Click 0])).
    reflexivity.
  - apply (proj2 board_nine_squares_marks_kept [Click 0; Click 4]).
    + discriminate.
    + lia.
    + vm_compute. discriminate.
Defined.
